(** * A shallow embedding of goose's HTTP client ([http] package)

    The package sends JSON and binary requests over [net/http].  Its three
    functions [JsonRequest], [BinaryRequest] and [sendRequest] are embedded
    below as state-passing functions over a [world] holding the transport,
    the requests handed to it and the memory that the caller's destination
    pointers designate.  Go's [(value, err)] results are kept as pairs, and a
    returned [err] as an [option error] ([None] is [nil]).

    Go strings and byte slices are both [string]s: a Go [string] is an
    immutable byte sequence, and the code converts freely between the two.

    The callers in package [swift] are embedded over an abstract
    [SendRequest] of their client; the query strings they build
    use the embedding of [url.Values.Encode] below. *)

From Stdlib Require Import String Ascii List ZArith NArith Bool Lia.
From Stdlib Require Import Sorting.Permutation Sorting.Sorted.
Set Warnings "-register-all".
Import ListNotations.
Open Scope string_scope.
Open Scope Z_scope.

(* ------------------------------------------------------------------ *)
(** ** JSON values and the syntactic layer of [encoding/json] *)

(** A decoded JSON document.  Number literals are kept as written: how a
    number decodes depends on the Go type it is decoded into. *)
Inductive json : Type :=
| JNull
| JBool (b : bool)
| JNumber (lit : string)
| JString (s : string)
| JArray (elems : list json)
| JObject (members : list (string * json)).

(** The double quote character. *)
Definition quote : ascii := ascii_of_nat 34.

(** [s] with every single quote replaced by a double quote: JSON texts
    are written with single quotes below. *)
Fixpoint dq (s : string) : string :=
  match s with
  | EmptyString => EmptyString
  | String c r => String (if (c =? "'")%char then quote else c) (dq r)
  end.

Definition is_ws (c : ascii) : bool :=
  (c =? " ")%char || (c =? "009")%char || (c =? "010")%char || (c =? "013")%char.

Fixpoint skip_ws (s : string) : string :=
  match s with
  | String c r => if is_ws c then skip_ws r else s
  | EmptyString => EmptyString
  end.

Definition is_digit (c : ascii) : bool :=
  let n := nat_of_ascii c in (48 <=? n)%nat && (n <=? 57)%nat.

(** Value of a hexadecimal digit. *)
Definition hex_val (c : ascii) : option N :=
  let n := N_of_ascii c in
  if (48 <=? n)%N && (n <=? 57)%N then Some (n - 48)%N
  else if (97 <=? n)%N && (n <=? 102)%N then Some (n - 87)%N
  else if (65 <=? n)%N && (n <=? 70)%N then Some (n - 55)%N
  else None.

(** The four hex digits of a [\uXXXX] escape. *)
Definition hex4 (s : string) : option (N * string) :=
  match s with
  | String a (String b (String c (String d r))) =>
      match hex_val a, hex_val b, hex_val c, hex_val d with
      | Some a, Some b, Some c, Some d =>
          Some ((((a * 16 + b) * 16 + c) * 16 + d)%N, r)
      | _, _, _, _ => None
      end
  | _ => None
  end.

Definition byte_of (n : N) : string := String (ascii_of_N n) EmptyString.

(** UTF-8 encoding of a code point, as [unicode/utf8.EncodeRune]. *)
Definition utf8_encode (cp : N) : string :=
  if (cp <? 128)%N then byte_of cp
  else if (cp <? 2048)%N then
    byte_of (192 + cp / 64) ++ byte_of (128 + cp mod 64)
  else if (cp <? 65536)%N then
    byte_of (224 + cp / 4096) ++ byte_of (128 + (cp / 64) mod 64)
      ++ byte_of (128 + cp mod 64)
  else
    byte_of (240 + cp / 262144) ++ byte_of (128 + (cp / 4096) mod 64)
      ++ byte_of (128 + (cp / 64) mod 64) ++ byte_of (128 + cp mod 64).

Definition replacement_char : string := utf8_encode 65533.

Definition is_surrogate_high (cp : N) : bool := (55296 <=? cp)%N && (cp <? 56320)%N.
Definition is_surrogate_low (cp : N) : bool := (56320 <=? cp)%N && (cp <? 57344)%N.

(** A [\uXXXX] escape, possibly the first half of a surrogate pair:
    the UTF-8 text it stands for and the input after it. *)
Definition unicode_escape (r : string) : option (string * string) :=
  match hex4 r with
  | None => None
  | Some (cp, r2) =>
      if is_surrogate_high cp then
        match r2 with
        | String "\" (String "u" r3) =>
            match hex4 r3 with
            | Some (cp2, r4) =>
                if is_surrogate_low cp2
                then Some (utf8_encode (65536 + (cp - 55296) * 1024 + (cp2 - 56320))%N, r4)
                else Some (replacement_char, r2)
            | None => Some (replacement_char, r2)
            end
        | _ => Some (replacement_char, r2)
        end
      else if is_surrogate_low cp then Some (replacement_char, r2)
      else Some (utf8_encode cp, r2)
  end.

(** The character a one-letter escape [\e] stands for. *)
Definition simple_escape (e : ascii) : option ascii :=
  if (e =? quote)%char then Some quote
  else if (e =? "\")%char then Some "\"%char
  else if (e =? "/")%char then Some "/"%char
  else if (e =? "b")%char then Some "008"%char
  else if (e =? "f")%char then Some "012"%char
  else if (e =? "n")%char then Some "010"%char
  else if (e =? "r")%char then Some "013"%char
  else if (e =? "t")%char then Some "009"%char
  else None.

(** Whether the byte [c] lies in [lo .. hi]. *)
Definition byte_in (lo hi : nat) (c : ascii) : bool :=
  let n := nat_of_ascii c in (lo <=? n)%nat && (n <=? hi)%nat.

(** [utf8.DecodeRune] at a byte that is not ASCII: the bytes of the one
    well-formed code point that starts [s] and the input after it, or
    [None] where [DecodeRune] returns [(RuneError, 1)]: a stray
    continuation byte, an overlong form, a surrogate, a code point above
    U+10FFFF or a truncated sequence. *)
Definition utf8_rune (s : string) : option (string * string) :=
  match s with
  | String c0 r0 =>
      let n := nat_of_ascii c0 in
      if byte_in 194 223 c0 then
        match r0 with
        | String c1 r1 =>
            if byte_in 128 191 c1 then Some (String c0 (String c1 EmptyString), r1)
            else None
        | EmptyString => None
        end
      else if byte_in 224 239 c0 then
        let lo := if (n =? 224)%nat then 160%nat else 128%nat in
        let hi := if (n =? 237)%nat then 159%nat else 191%nat in
        match r0 with
        | String c1 (String c2 r2) =>
            if byte_in lo hi c1 && byte_in 128 191 c2
            then Some (String c0 (String c1 (String c2 EmptyString)), r2)
            else None
        | _ => None
        end
      else if byte_in 240 244 c0 then
        let lo := if (n =? 240)%nat then 144%nat else 128%nat in
        let hi := if (n =? 244)%nat then 143%nat else 191%nat in
        match r0 with
        | String c1 (String c2 (String c3 r3)) =>
            if byte_in lo hi c1 && byte_in 128 191 c2 && byte_in 128 191 c3
            then Some (String c0 (String c1 (String c2 (String c3 EmptyString))), r3)
            else None
        | _ => None
        end
      else None
  | EmptyString => None
  end.

(** Body of a string literal after its opening quote, unquoted as
    [encoding/json] does: the standard escapes, [\uXXXX] with surrogate
    pairs (a lone surrogate becomes U+FFFD), control characters rejected,
    and the text coerced to well-formed UTF-8: a byte that does not start
    a well-formed code point becomes U+FFFD.  Returns the text and the
    input after the closing quote.  [fuel] bounds the number of characters
    read; [length s] is enough. *)
Fixpoint lex_string (fuel : nat) (s : string) : option (string * string) :=
  match fuel with
  | O => None
  | S f =>
  match s with
  | EmptyString => None
  | String c r =>
      if (c =? quote)%char then Some (EmptyString, r)
      else if (nat_of_ascii c <? 32)%nat then None
      else if (c =? "\")%char then
        match r with
        | String e r' =>
            if (e =? "u")%char then
              match unicode_escape r' with
              | Some (piece, r2) =>
                  match lex_string f r2 with
                  | Some (t, rest) => Some (piece ++ t, rest)
                  | None => None
                  end
              | None => None
              end
            else
              match simple_escape e with
              | Some d =>
                  match lex_string f r' with
                  | Some (t, rest) => Some (String d t, rest)
                  | None => None
                  end
              | None => None
              end
        | EmptyString => None
        end
      else if (nat_of_ascii c <? 128)%nat then
        match lex_string f r with
        | Some (t, rest) => Some (String c t, rest)
        | None => None
        end
      else
        let '(piece, r2) :=
          match utf8_rune s with
          | Some pr => pr
          | None => (replacement_char, r)
          end in
        match lex_string f r2 with
        | Some (t, rest) => Some (piece ++ t, rest)
        | None => None
        end
  end
  end.

Fixpoint lex_digits (s : string) : string * string :=
  match s with
  | String c r =>
      if is_digit c then let (d, rest) := lex_digits r in (String c d, rest)
      else (EmptyString, s)
  | EmptyString => (EmptyString, EmptyString)
  end.

(** A number literal [-?(0|[1-9][0-9]* )(.[0-9]+)?([eE][+-]?[0-9]+)?]:
    the literal and the input after it. *)
Definition lex_number (s : string) : option (string * string) :=
  let '(sign, s1) :=
    match s with String "-" r => ("-", r) | _ => (EmptyString, s) end in
  let int_part :=
    match s1 with
    | String "0" r => Some ("0", r)
    | String c _ =>
        if is_digit c then Some (lex_digits s1) else None
    | EmptyString => None
    end in
  match int_part with
  | None => None
  | Some (ip, s2) =>
      let frac :=
        match s2 with
        | String "." r =>
            match lex_digits r with
            | (EmptyString, _) => None
            | (d, rest) => Some ("." ++ d, rest)
            end
        | _ => Some (EmptyString, s2)
        end in
      match frac with
      | None => None
      | Some (fp, s3) =>
          let exp_of (e : ascii) (r : string) :=
            let '(esign, r1) :=
              match r with
              | String "+" r' => ("+", r')
              | String "-" r' => ("-", r')
              | _ => (EmptyString, r)
              end in
            match lex_digits r1 with
            | (EmptyString, _) => None
            | (d, rest) => Some (String e EmptyString ++ esign ++ d, rest)
            end in
          let ex :=
            match s3 with
            | String "e" r => exp_of "e"%char r
            | String "E" r => exp_of "E"%char r
            | _ => Some (EmptyString, s3)
            end in
          match ex with
          | None => None
          | Some (xp, s4) => Some (sign ++ ip ++ fp ++ xp, s4)
          end
      end
  end.

(** One JSON value after optional white space: the value and the rest of
    the input.  [fuel] bounds the nesting depth and the number of elements
    of each array or object; [S (length s)] is enough. *)
Fixpoint parse_value (fuel : nat) (s : string) : option (json * string) :=
  match fuel with
  | O => None
  | S f =>
  match skip_ws s with
  | String "n" (String "u" (String "l" (String "l" r))) => Some (JNull, r)
  | String "t" (String "r" (String "u" (String "e" r))) => Some (JBool true, r)
  | String "f" (String "a" (String "l" (String "s" (String "e" r)))) =>
      Some (JBool false, r)
  | String "[" r =>
      match skip_ws r with
      | String "]" r' => Some (JArray [], r')
      | _ =>
          (fix elems (g : nat) (r : string) (acc : list json) :=
             match g with
             | O => None
             | S g' =>
                 match parse_value f r with
                 | None => None
                 | Some (v, r1) =>
                     match skip_ws r1 with
                     | String "," r2 => elems g' r2 (v :: acc)
                     | String "]" r2 => Some (JArray (rev (v :: acc)), r2)
                     | _ => None
                     end
                 end
             end) f r []
      end
  | String "{" r =>
      match skip_ws r with
      | String "}" r' => Some (JObject [], r')
      | _ =>
          (fix members (g : nat) (r : string) (acc : list (string * json)) :=
             match g with
             | O => None
             | S g' =>
                 match skip_ws r with
                 | String q rk =>
                     if negb (q =? quote)%char then None else
                     match lex_string (String.length rk) rk with
                     | None => None
                     | Some (k, r1) =>
                         match skip_ws r1 with
                         | String ":" r2 =>
                             match parse_value f r2 with
                             | None => None
                             | Some (v, r3) =>
                                 match skip_ws r3 with
                                 | String "," r4 => members g' r4 ((k, v) :: acc)
                                 | String "}" r4 =>
                                     Some (JObject (rev ((k, v) :: acc)), r4)
                                 | _ => None
                                 end
                             end
                         | _ => None
                         end
                     end
                 | _ => None
                 end
             end) f r []
      end
  | String c r =>
      if (c =? quote)%char then
        match lex_string (String.length r) r with
        | Some (str, rest) => Some (JString str, rest)
        | None => None
        end
      else
        match lex_number (String c r) with
        | Some (lit, rest) => Some (JNumber lit, rest)
        | None => None
        end
  | EmptyString => None
  end
  end.

(** The whole input as one JSON document, surrounded by white space only;
    [None] is the syntax error [json.Unmarshal] reports before decoding
    anything. *)
Definition json_parse (s : string) : option json :=
  match parse_value (S (String.length s)) s with
  | Some (v, rest) =>
      match skip_ws rest with EmptyString => Some v | _ => None end
  | None => None
  end.

(* ------------------------------------------------------------------ *)
(** ** [ErrorResponse], [ErrorWrapper] and their decoding by [json.Unmarshal] *)

(** [type ErrorResponse struct { Message string `json:"message"`;
    Code int `json:"code"`; Title string `json:"title"` }]. *)
Record ErrorResponse : Type := mkErrorResponse {
  Message : string;
  Code : Z;
  Title : string
}.

(** The zero value, the state of [var wrappedErr ErrorWrapper]. *)
Definition ErrorResponse_zero : ErrorResponse := mkErrorResponse "" 0 "".

Definition ascii_lower (c : ascii) : ascii :=
  let n := nat_of_ascii c in
  if (65 <=? n)%nat && (n <=? 90)%nat then ascii_of_nat (n + 32) else c.

Definition ascii_upper (c : ascii) : ascii :=
  let n := nat_of_ascii c in
  if (97 <=? n)%nat && (n <=? 122)%nat then ascii_of_nat (n - 32) else c.

(** A key in the folded form [encoding/json] compares with the folded
    field name ([foldName]: each code point replaced by the least member
    of its Unicode simple case-folding class).  ASCII letters become upper
    case; U+017F (long s, bytes C5 BF) becomes [S] and U+212A (Kelvin sign,
    bytes E2 84 AA) becomes [K], the only code points outside ASCII whose
    class holds an ASCII letter.  Every other byte is kept: a code point
    outside ASCII folds to one outside ASCII, so a key holding one never
    matches a field name written in ASCII. *)
Fixpoint fold_name (s : string) : string :=
  match s with
  | EmptyString => EmptyString
  | String c r =>
      let n := nat_of_ascii c in
      if (n =? 197)%nat then
        match r with
        | String c1 r1 =>
            if (nat_of_ascii c1 =? 191)%nat then String "S" (fold_name r1)
            else String c (fold_name r)
        | EmptyString => String c EmptyString
        end
      else if (n =? 226)%nat then
        match r with
        | String c1 (String c2 r2) =>
            if (nat_of_ascii c1 =? 132)%nat && (nat_of_ascii c2 =? 170)%nat
            then String "K" (fold_name r2)
            else String c (fold_name r)
        | _ => String c (fold_name r)
        end
      else String (ascii_upper c) (fold_name r)
  end.

(** Whether the object key [key] names the field tagged [name] (an ASCII
    tag): they are equal under case folding, as [bytes.EqualFold]. *)
Definition equal_fold (key name : string) : bool :=
  String.eqb (fold_name key) (fold_name name).

Fixpoint digits_value (s : string) (acc : Z) : option Z :=
  match s with
  | EmptyString => Some acc
  | String c r =>
      if is_digit c then digits_value r (acc * 10 + (Z.of_nat (nat_of_ascii c) - 48))
      else None
  end.

(** [strconv.ParseInt(s, 10, 64)] on a JSON number literal, with the
    decoder's overflow check for a 64-bit [int]. *)
Definition parse_int64 (s : string) : option Z :=
  let v :=
    match s with
    | String "-" (String c r) => option_map Z.opp (digits_value (String c r) 0)
    | String c r => digits_value (String c r) 0
    | EmptyString => None
    end in
  match v with
  | Some z => if (- 2 ^ 63 <=? z) && (z <? 2 ^ 63) then Some z else None
  | None => None
  end.

(** Decoding a JSON value into a [string] field: the new field value and
    whether no [UnmarshalTypeError] was recorded.  [null] leaves the field
    as it is. *)
Definition decode_string (j : json) (cur : string) : string * bool :=
  match j with
  | JString s => (s, true)
  | JNull => (cur, true)
  | _ => (cur, false)
  end.

(** Decoding a JSON value into an [int] field. *)
Definition decode_int (j : json) (cur : Z) : Z * bool :=
  match j with
  | JNumber lit =>
      match parse_int64 lit with
      | Some z => (z, true)
      | None => (cur, false)
      end
  | JNull => (cur, true)
  | _ => (cur, false)
  end.

(** Decoding the members of a JSON object into an [ErrorResponse], in
    order: a key names a field when it equals its tag up to case, other
    keys are skipped, and a repeated key decodes again into the same field. *)
Fixpoint decode_ErrorResponse_members (ms : list (string * json))
    (e : ErrorResponse) : ErrorResponse * bool :=
  match ms with
  | [] => (e, true)
  | (k, v) :: rest =>
      let '(e', ok) :=
        if equal_fold k "message" then
          let (m, ok) := decode_string v (Message e) in
          (mkErrorResponse m (Code e) (Title e), ok)
        else if equal_fold k "code" then
          let (c, ok) := decode_int v (Code e) in
          (mkErrorResponse (Message e) c (Title e), ok)
        else if equal_fold k "title" then
          let (t, ok) := decode_string v (Title e) in
          (mkErrorResponse (Message e) (Code e) t, ok)
        else (e, true) in
      let '(e'', ok') := decode_ErrorResponse_members rest e' in
      (e'', ok && ok')
  end.

(** Decoding a JSON value into an [ErrorResponse] struct. *)
Definition decode_ErrorResponse (j : json) (e : ErrorResponse) : ErrorResponse * bool :=
  match j with
  | JObject ms => decode_ErrorResponse_members ms e
  | JNull => (e, true)
  | _ => (e, false)
  end.

(** [type ErrorWrapper struct { Error ErrorResponse `json:"error"` }]:
    decoding the members of the top-level object. *)
Fixpoint decode_ErrorWrapper_members (ms : list (string * json))
    (e : ErrorResponse) : ErrorResponse * bool :=
  match ms with
  | [] => (e, true)
  | (k, v) :: rest =>
      let '(e', ok) :=
        if equal_fold k "error" then decode_ErrorResponse v e else (e, true) in
      let '(e'', ok') := decode_ErrorWrapper_members rest e' in
      (e'', ok && ok')
  end.

(** [json.Unmarshal(body, &wrappedErr)] for a zero [wrappedErr]: the
    resulting [wrappedErr.Error] when [Unmarshal] returns [nil], [None]
    when it returns an error (a syntax error, or an [UnmarshalTypeError]
    recorded while decoding). *)
Definition Unmarshal_ErrorWrapper (body : string) : option ErrorResponse :=
  match json_parse body with
  | None => None
  | Some j =>
      let '(e, ok) :=
        match j with
        | JObject ms => decode_ErrorWrapper_members ms ErrorResponse_zero
        | JNull => (ErrorResponse_zero, true)
        | _ => (ErrorResponse_zero, false)
        end in
      if ok then Some e else None
  end.

(** The error envelope as the wire contract describes it, written
    without the decoder's state: which bodies decode, and to what. *)

(** The last element of [l], [d] when [l] is empty. *)
Definition last_or {A : Type} (d : A) (l : list A) : A :=
  match rev l with
  | [] => d
  | x :: _ => x
  end.

(** The members of the ["error"] objects of a top-level object, in order. *)
Definition error_fields (ms : list (string * json)) : list (string * json) :=
  flat_map (fun kv => if equal_fold (fst kv) "error"
                      then match snd kv with JObject ms' => ms' | _ => [] end
                      else []) ms.

(** The strings given to the field [name] by the members [ms]. *)
Definition string_values (name : string) (ms : list (string * json)) : list string :=
  flat_map (fun kv => if equal_fold (fst kv) name
                      then match snd kv with JString s => [s] | _ => [] end
                      else []) ms.

(** The 64-bit integers given to the field [name] by the members [ms]. *)
Definition int_values (name : string) (ms : list (string * json)) : list Z :=
  flat_map (fun kv => if equal_fold (fst kv) name
                      then match snd kv with
                           | JNumber lit =>
                               match parse_int64 lit with Some z => [z] | None => [] end
                           | _ => []
                           end
                      else []) ms.

Definition string_or_null (j : json) : bool :=
  match j with JString _ | JNull => true | _ => false end.

Definition int_or_null (j : json) : bool :=
  match j with
  | JNull => true
  | JNumber lit => match parse_int64 lit with Some _ => true | None => false end
  | _ => false
  end.

(** A member of an ["error"] object fits its field: a string or [null]
    for ["message"] and ["title"], a 64-bit integer or [null] for
    ["code"]; a member naming no field fits. *)
Definition error_member_ok (kv : string * json) : bool :=
  (negb (equal_fold (fst kv) "message") || string_or_null (snd kv)) &&
  (negb (equal_fold (fst kv) "code") || int_or_null (snd kv)) &&
  (negb (equal_fold (fst kv) "title") || string_or_null (snd kv)).

(** A member of the top-level object fits: an ["error"] member is [null]
    or an object whose members fit; other members are ignored. *)
Definition wrapper_member_ok (kv : string * json) : bool :=
  negb (equal_fold (fst kv) "error") ||
  match snd kv with
  | JNull => true
  | JObject ms' => forallb error_member_ok ms'
  | _ => false
  end.

(** The documents that decode into an [ErrorWrapper] without error. *)
Definition envelope_ok (j : json) : bool :=
  match j with
  | JNull => true
  | JObject ms => forallb wrapper_member_ok ms
  | _ => false
  end.

(** What they decode to: each field holds the last value given for it,
    its zero value when there is none. *)
Definition envelope_value (j : json) : ErrorResponse :=
  match j with
  | JObject ms =>
      let fs := error_fields ms in
      mkErrorResponse (last_or "" (string_values "message" fs))
                      (last_or 0 (int_values "code" fs))
                      (last_or "" (string_values "title" fs))
  | _ => ErrorResponse_zero
  end.

(* ------------------------------------------------------------------ *)
(** ** Decimal formatting ([strconv] and [fmt]'s [%d]) and [ErrorResponse.Error] *)

Definition digit_char (d : N) : ascii := ascii_of_N (48 + d).

(** The decimal digits of [n] in front of [acc], most significant first;
    [fuel] bounds the number of digits. *)
Fixpoint dec_digits (fuel : nat) (n : N) (acc : string) : string :=
  match fuel with
  | O => acc
  | S f =>
      let acc' := String (digit_char (n mod 10)) acc in
      if (n <? 10)%N then acc' else dec_digits f (n / 10) acc'
  end.

(** An unsigned integer in base 10 (a number has fewer decimal digits than
    binary ones, hence the fuel). *)
Definition format_N (n : N) : string := dec_digits (S (N.to_nat (N.size n))) n "".

(** [fmt]'s [%d] on an [int]: a minus sign for a negative value, then the
    digits of its magnitude. *)
Definition format_d (z : Z) : string :=
  if z <? 0 then String "-" (format_N (Z.to_N (- z))) else format_N (Z.to_N z).

(** [func (e *ErrorResponse) Error() string { return fmt.Sprintf("Failed:
    %d %s: %s", e.Code, e.Title, e.Message) }]. *)
Definition ErrorResponse_Error (e : ErrorResponse) : string :=
  "Failed: " ++ format_d (Code e) ++ " " ++ Title e ++ ": " ++ Message e.

(* ------------------------------------------------------------------ *)
(** ** [net/http] headers *)

(** An [http.Header] ([map[string][]string]) as the list of its entries:
    a map filled through [Add] has one entry per canonical key, and the
    order of the list is the order in which [range] visits the map. *)
Definition header : Type := list (string * list string).

(** Bytes allowed in a header field name (an RFC 7230 token). *)
Definition is_token_char (c : ascii) : bool :=
  let n := nat_of_ascii c in
  ((48 <=? n) && (n <=? 57))%nat || ((65 <=? n) && (n <=? 90))%nat
  || ((97 <=? n) && (n <=? 122))%nat
  || existsb (fun d => (c =? d)%char)
       ["!"; "#"; "$"; "%"; "&"; "'"; "*"; "+"; "-"; "."; "^"; "_"; "`"; "|"; "~"]%char.

Fixpoint string_forallb (p : ascii -> bool) (s : string) : bool :=
  match s with
  | EmptyString => true
  | String c r => p c && string_forallb p r
  end.

Fixpoint canonical_aux (upper : bool) (s : string) : string :=
  match s with
  | EmptyString => EmptyString
  | String c r =>
      String (if upper then ascii_upper c else ascii_lower c)
             (canonical_aux (c =? "-")%char r)
  end.

(** [textproto.CanonicalMIMEHeaderKey]: upper case at the start and after
    each hyphen, lower case elsewhere; a key with a non-token byte is
    returned unchanged. *)
Definition CanonicalMIMEHeaderKey (s : string) : string :=
  if string_forallb is_token_char s then canonical_aux true s else s.

(** The values stored under exactly the key [k] ([h[k]]). *)
Fixpoint header_lookup (h : header) (k : string) : list string :=
  match h with
  | [] => []
  | (k', vs) :: rest => if String.eqb k k' then vs else header_lookup rest k
  end.

(** [h[k] = append(h[k], v)]. *)
Fixpoint header_append (h : header) (k v : string) : header :=
  match h with
  | [] => [(k, [v])]
  | (k', vs) :: rest =>
      if String.eqb k k' then (k', (vs ++ [v])%list) :: rest
      else (k', vs) :: header_append rest k v
  end.

(** [h.Add(key, value)]. *)
Definition header_add (h : header) (key value : string) : header :=
  header_append h (CanonicalMIMEHeaderKey key) value.

(** All the values of [key] ([h[CanonicalMIMEHeaderKey(key)]]). *)
Definition header_values (h : header) (key : string) : list string :=
  header_lookup h (CanonicalMIMEHeaderKey key).

(** [h.Get(key)]: the first value, or [""]. *)
Definition header_get (h : header) (key : string) : string :=
  match header_values h key with
  | v :: _ => v
  | [] => ""
  end.

(* ------------------------------------------------------------------ *)
(** ** [net/url]: [url.Values] and its [Encode] *)

Module net_url.

(** A [url.Values] ([map[string][]string]) as the list of its entries,
    one per key, in the order [range] visits the map.  [v.Add(key, value)]
    is [header_append v key value] ([v[key] = append(v[key], value)]), and
    [v[key]] is [header_lookup v key]. *)
Definition values : Type := list (string * list string).

Definition is_alnum (c : ascii) : bool :=
  let n := nat_of_ascii c in
  ((97 <=? n) && (n <=? 122))%nat || ((65 <=? n) && (n <=? 90))%nat
  || ((48 <=? n) && (n <=? 57))%nat.

(** [shouldEscape(c, encodeQueryComponent)]: everything but letters,
    digits and [-_.~]; the reserved characters are all escaped in a query
    component. *)
Definition shouldEscape (c : ascii) : bool :=
  if is_alnum c then false
  else if (c =? "-")%char || (c =? "_")%char || (c =? ".")%char || (c =? "~")%char
  then false
  else true.

(** ["0123456789ABCDEF"[n]]. *)
Definition upperhex (n : N) : ascii :=
  if (n <? 10)%N then ascii_of_N (48 + n) else ascii_of_N (55 + n).

(** [url.QueryEscape]: a space becomes [+], another escaped byte [%XX]. *)
Fixpoint QueryEscape (s : string) : string :=
  match s with
  | EmptyString => EmptyString
  | String c r =>
      if shouldEscape c then
        if (c =? " ")%char then String "+" (QueryEscape r)
        else String "%" (String (upperhex (N_of_ascii c / 16))
                           (String (upperhex (N_of_ascii c mod 16)) (QueryEscape r)))
      else String c (QueryEscape r)
  end.

Fixpoint insert_key (k : string) (ks : list string) : list string :=
  match ks with
  | [] => [k]
  | k' :: rest => if String.ltb k' k then k' :: insert_key k rest else k :: ks
  end.

(** [sort.Strings]: increasing byte-wise order. *)
Definition sort_Strings (ks : list string) : list string := fold_right insert_key [] ks.

(** [func (v Values) Encode() string]: the keys sorted, and for each key
    and each of its values [key=value], escaped, joined with [&]. *)
Definition Values_Encode (v : values) : string :=
  let keys := sort_Strings (map fst v) in
  fold_left
    (fun buf k =>
       let keyEscaped := QueryEscape k in
       fold_left
         (fun buf x =>
            (if (0 <? String.length buf)%nat then buf ++ "&" else buf)
            ++ keyEscaped ++ "=" ++ QueryEscape x)
         (header_lookup v k) buf)
    keys "".

End net_url.

(* ------------------------------------------------------------------ *)
(** ** Errors, requests and responses *)

(** The detail printed by [sendRequest] for an unexpected status: the
    decoded [ErrorResponse], or the raw body bytes ([errInfo] is then the
    [[]byte] read from the body). *)
Inductive ErrInfo : Type :=
| InfoStructured (e : ErrorResponse)
| InfoRaw (body : string).

Inductive error : Type :=
| GoError (msg : string)
    (** an error returned by a library: [json], [url], the transport, [io] *)
| WithContext (ctx : string) (cause : error)
    (** [gooseerrors.AddContext(cause, ctx)] *)
| UnexpectedStatus (url status : string) (info : ErrInfo) (payload : string).
    (** [errors.New(fmt.Sprintf("request (%s) returned unexpected status:
        %s; error info: %v; request body: %s", req.URL, rawResp.Status,
        errInfo, payloadInfo))] *)

(** [fmt]'s [%v] on a [[]byte]: each byte in decimal, separated by
    spaces (the caller adds the brackets). *)
Fixpoint fmt_bytes_aux (first : bool) (s : string) : string :=
  match s with
  | EmptyString => ""
  | String c r =>
      (if first then "" else " ") ++ format_N (N_of_ascii c) ++ fmt_bytes_aux false r
  end.

(** [fmt]'s [%v] on [errInfo]: a decoded [ErrorResponse] is a struct value,
    whose method set lacks the pointer method [Error], so its fields are
    printed in braces; a [[]byte] is printed as its bytes in brackets. *)
Definition format_errInfo (i : ErrInfo) : string :=
  match i with
  | InfoStructured e =>
      "{" ++ Message e ++ " " ++ format_d (Code e) ++ " " ++ Title e ++ "}"
  | InfoRaw b => "[" ++ fmt_bytes_aux true b ++ "]"
  end.

(** The text of [UnexpectedStatus url status info payload]. *)
Definition unexpected_status_message (url status : string) (info : ErrInfo)
    (payload : string) : string :=
  "request (" ++ url ++ ") returned unexpected status: " ++ status
  ++ "; error info: " ++ format_errInfo info ++ "; request body: " ++ payload.

(** An [http.Request] as far as the client sets it. *)
Record request : Type := mkRequest {
  Method : string;
  URL : string;
  Header : header;
  Body : option string   (** [nil], or the bytes of the body reader *)
}.

Definition with_header (r : request) (h : header) : request :=
  mkRequest (Method r) (URL r) h (Body r).

(** An [http.Response]: reading its body yields [RespBody] and then
    [RespBodyErr] ([nil] at end of input). *)
Record response : Type := mkResponse {
  StatusCode : Z;
  Status : string;
  RespHeader : header;
  RespBody : string;
  RespBodyErr : option error
}.

(** [ioutil.ReadAll(rawResp.Body)]: the bytes read, and the read error. *)
Definition ReadAll (r : response) : string * option error :=
  (RespBody r, RespBodyErr r).

Definition StatusOK : Z := 200.

(** [type Client struct { http.Client; AuthToken string }]; the embedded
    [http.Client] is the transport of the [world]. *)
Record Client : Type := mkClient { AuthToken : string }.

(** [type RequestData struct]. [RespValue] and [RespData] are [nil] or a
    pointer, i.e. an address in the corresponding memory of the [world]. *)
Record RequestData (V : Type) : Type := mkRequestData {
  ReqHeaders : option header;
  Params : option (list (string * list string));
  ExpectedStatus : list Z;
  ReqValue : option V;
  RespValue : option nat;
  ReqData : option string;
  RespData : option nat
}.

(** What the client acts on: the transport behind [c.Do] (its answer to
    the [n]-th request), the requests it was handed, the memory the
    caller's [*[]byte] and [RespValue] pointers designate, and standard
    output. *)
Record world (D : Type) : Type := mkWorld {
  transport : nat -> response + error;
  sent : list request;
  bytes_mem : nat -> string;
  value_mem : nat -> D;
  stdout : list (option json)
}.

Arguments mkRequestData {V}.
Arguments ReqHeaders {V}.
Arguments Params {V}.
Arguments ExpectedStatus {V}.
Arguments ReqValue {V}.
Arguments RespValue {V}.
Arguments ReqData {V}.
Arguments RespData {V}.
Arguments mkWorld {D}.
Arguments transport {D}.
Arguments sent {D}.
Arguments bytes_mem {D}.
Arguments value_mem {D}.
Arguments stdout {D}.

(* ------------------------------------------------------------------ *)
(** ** Callers of the client: the [swift] package *)

(** [goosehttp.RequestData] as [swift.go] fills it.  The
    version of package [http] they are built against also has a
    [ReqReader] field, the [io.Reader] of the request body, given here by
    the bytes it yields.  [RespValue] is [nil] or a pointer to a variable
    of the caller, given by the contents of that variable. *)
Module goosehttp.

Record RequestData (T : Type) : Type := mkRequestData {
  ReqHeaders : option header;
  Params : option net_url.values;
  ExpectedStatus : list Z;
  ReqReader : option string;
  RespValue : option T
}.

Arguments mkRequestData {T}.
Arguments ReqHeaders {T}.
Arguments Params {T}.
Arguments ExpectedStatus {T}.
Arguments ReqReader {T}.
Arguments RespValue {T}.

End goosehttp.

Definition StatusCreated : Z := 201.
Definition StatusAccepted : Z := 202.
Definition StatusNoContent : Z := 204.

(** The method names of package [client]. *)
Module client.
Definition GET : string := "GET".
Definition HEAD : string := "HEAD".
Definition PUT : string := "PUT".
Definition DELETE : string := "DELETE".
End client.

Module swift.

(** [type ContainerContents struct]. *)
Record ContainerContents : Type := mkContainerContents {
  Name : string;
  Hash : string;
  LengthBytes : Z;
  ContentType : string;
  LastModified : string
}.

Section Swift.

(** The state of the [client.Client] and of the services behind it. *)
Variable St : Type.
(** The [error] values package [client] returns. *)
Variable E : Type.
(** [c.client.SendRequest(method, svcType, apiCall, &requestData)]: the
    returned error, and the contents of the variable [RespValue] points to
    after the call. *)
Variable SendRequest :
  forall T : Type, string -> string -> string -> goosehttp.RequestData T -> St ->
  (option E * option T) * St.
(** [c.client.MakeServiceURL(serviceType, parts)]. *)
Variable MakeServiceURL : string -> list string -> St -> (string * option E) * St.
(** [errors.Newf(errors.UnspecifiedError, err, nil, msg)]. *)
Variable Newf_Unspecified : E -> string -> E.
(** [time.Time]. *)
Variable Time : Type.

(** [func (c *Client) CreateContainer(containerName string) error]. *)
Definition CreateContainer (containerName : string) (s : St) : option E * St :=
  let headers := header_add [] "X-Container-Read" ".r:*" in
  let url := "/" ++ containerName in
  let requestData : goosehttp.RequestData unit :=
    goosehttp.mkRequestData (Some headers) None [StatusAccepted; StatusCreated] None None in
  let '((err, _), s') := SendRequest unit client.PUT "object-store" url requestData s in
  (match err with
   | Some e => Some (Newf_Unspecified e ("failed to create container: " ++ containerName))
   | None => None
   end, s').

(** [func (c *Client) DeleteContainer(containerName string) error]. *)
Definition DeleteContainer (containerName : string) (s : St) : option E * St :=
  let url := "/" ++ containerName in
  let requestData : goosehttp.RequestData unit :=
    goosehttp.mkRequestData None None [StatusNoContent] None None in
  let '((err, _), s') := SendRequest unit client.DELETE "object-store" url requestData s in
  (match err with
   | Some e => Some (Newf_Unspecified e ("failed to delete container: " ++ containerName))
   | None => None
   end, s').

(** [func (c *Client) touchObject(requestData *goosehttp.RequestData, op,
    containerName, objectName string) error]. *)
Definition touchObject {T : Type} (requestData : goosehttp.RequestData T)
    (op containerName objectName : string) (s : St) : option E * St :=
  let path := "/" ++ containerName ++ "/" ++ objectName in
  let '((err, _), s') := SendRequest T op "object-store" path requestData s in
  (match err with
   | Some e => Some (Newf_Unspecified e ("failed to " ++ op ++ " object " ++ objectName
                                         ++ " from container " ++ containerName))
   | None => None
   end, s').

(** [func (c *Client) HeadObject(containerName, objectName string)
    (headers http.Header, err error)]: [headers] is the named result,
    [nil] ([None]) at the start. *)
Definition HeadObject (containerName objectName : string) (s : St)
    : (option header * option E) * St :=
  let headers : option header := None in
  let requestData : goosehttp.RequestData unit :=
    goosehttp.mkRequestData headers None [] None None in
  let '(err, s') := touchObject requestData client.HEAD containerName objectName s in
  ((headers, err), s').

(** [func (c *Client) DeleteObject(containerName, objectName string) error]. *)
Definition DeleteObject (containerName objectName : string) (s : St) : option E * St :=
  let requestData : goosehttp.RequestData unit :=
    goosehttp.mkRequestData None None [StatusNoContent] None None in
  touchObject requestData client.DELETE containerName objectName s.

(** [func (c *Client) PutReader(containerName, objectName string, r
    io.Reader) error], the reader given by the bytes it yields. *)
Definition PutReader (containerName objectName : string) (r : string) (s : St)
    : option E * St :=
  let requestData : goosehttp.RequestData unit :=
    goosehttp.mkRequestData None None [StatusCreated] (Some r) None in
  touchObject requestData client.PUT containerName objectName s.

(** [func (c *Client) PutObject(containerName, objectName string, data
    []byte) error]: [bytes.NewReader(data)] yields [data]. *)
Definition PutObject (containerName objectName : string) (data : string) (s : St)
    : option E * St :=
  PutReader containerName objectName data s.

(** The query parameters of [List]. *)
Definition List_params (prefix delim marker : string) (limit : Z) : net_url.values :=
  let params : net_url.values := [] in
  let params := header_append params "prefix" prefix in
  let params := header_append params "delimiter" delim in
  let params := header_append params "marker" marker in
  if 0 <? limit then header_append params "limit" (format_d limit) else params.

(** [func (c *Client) List(containerName, prefix, delim, marker string,
    limit int) (contents []ContainerContents, err error)]: [contents] is
    the named result ([nil], the empty list, at the start) that
    [RespValue] points to. *)
Definition List (containerName prefix delim marker : string) (limit : Z) (s : St)
    : (list ContainerContents * option E) * St :=
  let contents : list ContainerContents := [] in
  let params := List_params prefix delim marker limit in
  let requestData := goosehttp.mkRequestData None (Some params) [] None (Some contents) in
  let url := "/" ++ containerName in
  let '((err, decoded), s') := SendRequest _ client.GET "object-store" url requestData s in
  let contents := match decoded with Some cs => cs | None => contents end in
  ((contents,
    match err with
    | Some e => Some (Newf_Unspecified e ("failed to list contents of container: "
                                          ++ containerName))
    | None => None
    end), s').

(** [func (c *Client) URL(containerName, file string) (string, error)]. *)
Definition URL (containerName file : string) (s : St) : (string * option E) * St :=
  MakeServiceURL "object-store" [containerName; file] s.

(** [func (c *Client) SignedURL(containerName, file string, expires
    time.Time) (string, error)]. *)
Definition SignedURL (containerName file : string) (expires : Time) (s : St)
    : (string * option E) * St :=
  let '((rawURL, err), s') := URL containerName file s in
  match err with
  | Some e => (("", Some e), s')
  | None => ((rawURL, None), s')
  end.

End Swift.

End swift.

(** A string that starts with a decimal digit. *)
Definition digit_head (s : string) : Prop :=
  exists m r, (m < 10)%N /\ s = String (digit_char m) r.

(** The characters of a printed [[]byte]: digits, spaces and brackets. *)
Definition raw_char (c : ascii) : bool :=
  is_digit c || (c =? " ")%char || (c =? "[")%char || (c =? "]")%char.

(** What follows a byte's digits in [fmt_bytes_aux]: nothing, or a space. *)
Definition sep_start (s : string) : Prop :=
  s = "" \/ exists r, s = String " " r.

(** The characters [url.QueryEscape] outputs. *)
Definition query_char (c : ascii) : bool :=
  net_url.is_alnum c || (c =? "-")%char || (c =? "_")%char || (c =? ".")%char
  || (c =? "~")%char || (c =? "%")%char || (c =? "+")%char.

(** The order [sort.Strings] sorts by. *)
Definition str_lt (s t : string) : Prop := String.compare s t = Lt.

(* ------------------------------------------------------------------ *)
(** ** A concrete setting for evaluating the client *)

(** A Go value to send: a boolean, or a channel, which [json.Marshal]
    rejects with an [UnsupportedTypeError]. *)
Inductive sample_value : Type :=
| SampleBool (b : bool)
| SampleChan.

Definition sample_Marshal (v : sample_value) : string + error :=
  match v with
  | SampleBool true => inl "true"
  | SampleBool false => inl "false"
  | SampleChan => inr (GoError "json: unsupported type: chan int")
  end.

(** [json.Unmarshal] into a variable of type [interface{}] ([None] is
    [nil]): a syntax error leaves it unchanged, [null] sets it to [nil],
    any other document replaces it. *)
Definition sample_Unmarshal (body : string) (cur : option json)
    : option json * option error :=
  match json_parse body with
  | None => (cur, Some (GoError "invalid character looking for beginning of value"))
  | Some JNull => (None, None)
  | Some j => (Some j, None)
  end.

(** The examples send no query parameters, so [Encode] is not reached;
    their URLs are already in the form [url.Parse] gives back. *)
Definition sample_Encode (_ : list (string * list string)) : string := "".
Definition sample_Parse (u : string) : string + error := inl u.

Definition sample_response (code : Z) (status ctype body : string) : response :=
  mkResponse code status [("Content-Type", [ctype])] body None.

Definition too_many_requests : response :=
  sample_response 429 "429 Too Many Requests" "text/plain" "slow down".

Definition ok_response : response :=
  sample_response 200 "200 OK" "application/octet-stream" "hello".

(** A transport answering "too many requests" to its first [k] requests
    and "OK" afterwards. *)
Definition throttled_then_ok (k : nat) (n : nat) : response + error :=
  if (n <? k)%nat then inl too_many_requests else inl ok_response.

Definition created_response : response :=
  sample_response 201 "201 Created" "application/json" "{}".

Definition quota_response : response :=
  sample_response 413 "413 Request Entity Too Large" "application/json"
    (dq "{'error':{'message':'quota exceeded','code':413,'title':'Over Limit'}}").

Definition empty_object_response : response :=
  sample_response 500 "500 Internal Server Error" "application/json" "{}".

Definition empty_ok_response : response :=
  sample_response 200 "200 OK" "application/octet-stream" "".

(** A transport giving the same answer to every request. *)
Definition always (r : response) (_ : nat) : response + error := inl r.

Definition sample_client : Client := mkClient "secret-token".
Definition sample_url : string := "http://compute.example/v2/servers".
Definition sample_plain_request : request := mkRequest "GET" sample_url [] None.

(** Extra headers a caller may pass. *)
Definition caller_headers : header := [("content-type", ["text/plain"])].

(** A world with the transport [t], nothing sent yet, every [*[]byte]
    holding "old" and every [interface{}] variable [nil]. *)
Definition sample_world (t : nat -> response + error) : world (option json) :=
  mkWorld t [] (fun _ => "old") (fun _ => None) [].

Definition sample_request (expected : list Z) (value : option sample_value)
    (resp_value resp_data : option nat) : RequestData sample_value :=
  mkRequestData None None expected value resp_value None resp_data.

(** An error envelope whose code does not fit in a 64-bit [int]. *)
Definition overflow_code_response : response :=
  sample_response 500 "500 Internal Server Error" "application/json"
    (dq "{'error':{'message':'boom','code':99999999999999999999,'title':'Oops'}}").

(* ------------------------------------------------------------------ *)
(** ** The client *)

Section HttpClient.

(** The Go type of [ReqValue] and [json.Marshal] on it. *)
Variable V : Type.
Variable json_Marshal : V -> string + error.

(** The Go type of the variable [RespValue] points to, and
    [json.Unmarshal(body, &reqData.RespValue)] on it: the new contents of
    the variable and the returned error. *)
Variable D : Type.
Variable json_Unmarshal : string -> D -> D * option error.

(** [url.Values.Encode] and [url.Parse] (the [String] form of the parsed
    URL, or the parse error). *)
Variable Values_Encode : list (string * list string) -> string.
Variable url_Parse : string -> string + error.

Definition M (A : Type) : Type := world D -> A * world D.

Definition ret {A} (a : A) : M A := fun w => (a, w).

Definition bind {A B} (m : M A) (k : A -> M B) : M B :=
  fun w => let (a, w') := m w in k a w'.

Local Notation "x <- m ;; k" := (bind m (fun x => k))
  (at level 61, m at next level, right associativity).
Local Notation "' p <- m ;; k" := (bind m (fun x => match x with p => k end))
  (at level 61, p pattern, m at next level, right associativity).

(** [c.Do(req)]: the transport answers the request, which is recorded. *)
Definition Do (req : request) : M (response + error) :=
  fun w => (transport w (length (sent w)),
            mkWorld (transport w) (sent w ++ [req]) (bytes_mem w) (value_mem w) (stdout w)).

(** [*p = b] for a [*[]byte] pointer [p]. *)
Definition store_bytes (p : nat) (b : string) : M unit :=
  fun w => (tt, mkWorld (transport w) (sent w)
                  (fun q => if Nat.eqb q p then b else bytes_mem w q)
                  (value_mem w) (stdout w)).

(** [json.Unmarshal(body, &reqData.RespValue)] when [RespValue] holds the
    pointer [p]: the variable [*p] is decoded into in place. *)
Definition unmarshal_into (p : nat) (body : string) : M (option error) :=
  fun w => let (d, err) := json_Unmarshal body (value_mem w p) in
           (err, mkWorld (transport w) (sent w) (bytes_mem w)
                   (fun q => if Nat.eqb q p then d else value_mem w q) (stdout w)).

(** [var mm interface{}; json.Unmarshal(body, &mm); fmt.Println(mm)]: the
    generic decoding ([nil] for [null] or on a syntax error) is printed. *)
Definition print_generic (body : string) : M unit :=
  let mm := match json_parse body with
            | Some JNull | None => None
            | Some j => Some j
            end in
  fun w => (tt, mkWorld (transport w) (sent w) (bytes_mem w) (value_mem w)
                  (stdout w ++ [mm])).

(** [http.NewRequest(method, url, body)]. *)
Definition NewRequest (method url : string) (body : option string) : request + error :=
  match url_Parse url with
  | inl u => inl (mkRequest method u [] body)
  | inr e => inr e
  end.

(** The loop of [sendRequest] looking for the response status. *)
Fixpoint found_status (code : Z) (expected : list Z) : bool :=
  match expected with
  | [] => false
  | status :: rest => if Z.eqb code status then true else found_status code rest
  end.

(** [for header, values := range extraHeaders { for _, value := range
    values { req.Header.Add(header, value) } }]. *)
Definition merge_headers (h : header) (extra : header) : header :=
  fold_left (fun h '(k, vs) => fold_left (fun h v => header_add h k v) vs h) extra h.

(** The [errInfo] of an unexpected status: the body read, replaced by the
    decoded [ErrorWrapper]'s [Error] when the response declares JSON and
    [json.Unmarshal] succeeds.  The read error is discarded. *)
Definition error_info (rawResp : response) : ErrInfo :=
  let errInfo := fst (ReadAll rawResp) in
  if String.eqb (header_get (RespHeader rawResp) "Content-Type") "application/json" then
    match Unmarshal_ErrorWrapper errInfo with
    | Some e => InfoStructured e
    | None => InfoRaw errInfo
    end
  else InfoRaw errInfo.

(** [func (c *Client) sendRequest(req, extraHeaders, expectedStatus,
    payloadInfo) (respBody []byte, err error)]. *)
Definition sendRequest (c : Client) (req : request) (extraHeaders : option header)
    (expectedStatus : list Z) (payloadInfo : string) : M (string * option error) :=
  let req := match extraHeaders with
             | Some eh => with_header req (merge_headers (Header req) eh)
             | None => req
             end in
  let req := if negb (String.eqb (AuthToken c) "")
             then with_header req (header_add (Header req) "X-Auth-Token" (AuthToken c))
             else req in
  rawResp <- Do req ;;
  match rawResp with
  | inr err => ret ("", Some (WithContext "failed executing the request" err))
  | inl rawResp =>
      let expectedStatus := match expectedStatus with
                            | [] => [StatusOK]
                            | _ => expectedStatus
                            end in
      let foundStatus := found_status (StatusCode rawResp) expectedStatus in
      if negb foundStatus && (0 <? length expectedStatus)%nat then
        ret ("", Some (UnexpectedStatus (URL req) (Status rawResp)
                         (error_info rawResp) payloadInfo))
      else
        let '(respBody, err) := ReadAll rawResp in
        match err with
        | Some e => ret (respBody, Some (WithContext "failed reading the response body" e))
        | None => ret (respBody, None)
        end
  end.

(** [url += "?" + reqData.Params.Encode()] when [Params] is not [nil]. *)
Definition with_params (url : string) (reqData : RequestData V) : string :=
  match Params reqData with
  | Some p => url ++ "?" ++ Values_Encode p
  | None => url
  end.

(** [func (c *Client) JsonRequest(method, url string, reqData *RequestData)
    (err error)]. *)
Definition JsonRequest (c : Client) (method url : string) (reqData : RequestData V)
    : M (option error) :=
  let url := with_params url reqData in
  let prepared : (string * (request + error)) + error :=
    match ReqValue reqData with
    | Some v =>
        match json_Marshal v with
        | inr err => inr (WithContext "failed marshalling the request body" err)
        | inl body => inl (body, NewRequest method url (Some body))
        end
    | None => inl ("", NewRequest method url None)
    end in
  match prepared with
  | inr err => ret (Some err)
  | inl (_, inr err) => ret (Some (WithContext "failed creating the request" err))
  | inl (body, inl req) =>
      let req := with_header req
                   (header_add (header_add (Header req) "Content-Type" "application/json")
                               "Accept" "application/json") in
      '(respBody, err) <- sendRequest c req (ReqHeaders reqData) (ExpectedStatus reqData) body ;;
      match err with
      | Some _ => ret err
      | None =>
          if (0 <? String.length respBody)%nat then
            match RespValue reqData with
            | Some p =>
                _ <- print_generic respBody ;;
                err <- unmarshal_into p respBody ;;
                match err with
                | Some e =>
                    ret (Some (WithContext
                                 ("failed unmarshaling the response body: " ++ respBody) e))
                | None => ret None
                end
            | None => ret None
            end
          else ret None
      end
  end.

(** [func (c *Client) BinaryRequest(method, url string, reqData
    *RequestData) (err error)]. *)
Definition BinaryRequest (c : Client) (method url : string) (reqData : RequestData V)
    : M (option error) :=
  let url := with_params url reqData in
  let created := match ReqData reqData with
                 | Some d => NewRequest method url (Some d)
                 | None => NewRequest method url None
                 end in
  match created with
  | inr err => ret (Some (WithContext "failed creating the request" err))
  | inl req =>
      let req := with_header req
                   (header_add (header_add (Header req) "Content-Type" "application/octet-stream")
                               "Accept" "application/octet-stream") in
      let payload := match ReqData reqData with Some d => d | None => "" end in
      '(respBody, err) <- sendRequest c req (ReqHeaders reqData) (ExpectedStatus reqData) payload ;;
      match err with
      | Some _ => ret err
      | None =>
          if (0 <? String.length respBody)%nat then
            match RespData reqData with
            | Some p => _ <- store_bytes p respBody ;; ret None
            | None => ret None
            end
          else ret None
      end
  end.

(* ------------------------------------------------------------------ *)
(** ** Properties *)

(** The list [sendRequest] compares the status with. *)
Definition effective_status (expected : list Z) : list Z :=
  match expected with [] => [StatusOK] | _ => expected end.

(** The request [sendRequest] hands to the transport. *)
Definition dispatched (c : Client) (req : request) (extraHeaders : option header) : request :=
  let req := match extraHeaders with
             | Some eh => with_header req (merge_headers (Header req) eh)
             | None => req
             end in
  if negb (String.eqb (AuthToken c) "")
  then with_header req (header_add (Header req) "X-Auth-Token" (AuthToken c))
  else req.

Definition record_sent (w : world D) (r : request) : world D :=
  mkWorld (transport w) (sent w ++ [r]) (bytes_mem w) (value_mem w) (stdout w).

(** What [sendRequest] returns for the transport's answer. *)
Definition send_result (req : request) (expected : list Z) (payload : string)
    (answer : response + error) : string * option error :=
  match answer with
  | inr err => ("", Some (WithContext "failed executing the request" err))
  | inl rawResp =>
      if found_status (StatusCode rawResp) (effective_status expected) then
        match RespBodyErr rawResp with
        | Some e => (RespBody rawResp, Some (WithContext "failed reading the response body" e))
        | None => (RespBody rawResp, None)
        end
      else ("", Some (UnexpectedStatus (URL req) (Status rawResp) (error_info rawResp) payload))
  end.

(** Whether a returned error is the unexpected-status error. *)
Definition is_unexpected_status (err : option error) : bool :=
  match err with Some (UnexpectedStatus _ _ _ _) => true | _ => false end.

(** The values the caller's extra headers give to [key]: those of every
    entry whose key has the same canonical form, in iteration order. *)
Definition extra_values (extraHeaders : option header) (key : string) : list string :=
  match extraHeaders with
  | None => []
  | Some eh =>
      concat (map (fun e => if String.eqb (CanonicalMIMEHeaderKey key)
                                          (CanonicalMIMEHeaderKey (fst e))
                            then snd e else []) eh)
  end.

(** The headers a façade sets before dispatching. *)
Definition with_content_headers (ctype : string) (req : request) : request :=
  with_header req (header_add (header_add (Header req) "Content-Type" ctype) "Accept" ctype).

(** [JsonRequest] up to the call of [sendRequest]: the payload and the
    request, or the error returned before anything is sent. *)
Definition json_build (method url : string) (reqData : RequestData V)
    : (string * request) + error :=
  let url := with_params url reqData in
  let created (body : string) (r : request + error) :=
    match r with
    | inl req => inl (body, with_content_headers "application/json" req)
    | inr err => inr (WithContext "failed creating the request" err)
    end in
  match ReqValue reqData with
  | Some v =>
      match json_Marshal v with
      | inr err => inr (WithContext "failed marshalling the request body" err)
      | inl body => created body (NewRequest method url (Some body))
      end
  | None => created "" (NewRequest method url None)
  end.

(** [JsonRequest] after [sendRequest] returned [(respBody, err)]. *)
Definition json_finish (reqData : RequestData V) (respBody : string) (err : option error)
    : M (option error) :=
  match err with
  | Some _ => ret err
  | None =>
      if (0 <? String.length respBody)%nat then
        match RespValue reqData with
        | Some p =>
            _ <- print_generic respBody ;;
            err <- unmarshal_into p respBody ;;
            match err with
            | Some e =>
                ret (Some (WithContext
                             ("failed unmarshaling the response body: " ++ respBody) e))
            | None => ret None
            end
        | None => ret None
        end
      else ret None
  end.

(** [BinaryRequest] up to the call of [sendRequest]. *)
Definition binary_build (method url : string) (reqData : RequestData V)
    : (string * request) + error :=
  let url := with_params url reqData in
  let created := match ReqData reqData with
                 | Some d => NewRequest method url (Some d)
                 | None => NewRequest method url None
                 end in
  match created with
  | inr err => inr (WithContext "failed creating the request" err)
  | inl req =>
      inl (match ReqData reqData with Some d => d | None => "" end,
           with_content_headers "application/octet-stream" req)
  end.

(** [BinaryRequest] after [sendRequest] returned [(respBody, err)]. *)
Definition binary_finish (reqData : RequestData V) (respBody : string) (err : option error)
    : M (option error) :=
  match err with
  | Some _ => ret err
  | None =>
      if (0 <? String.length respBody)%nat then
        match RespData reqData with
        | Some p => _ <- store_bytes p respBody ;; ret None
        | None => ret None
        end
      else ret None
  end.

(** The requests handed to the transport between [w] and [w']. *)
Definition new_requests (w w' : world D) : list request :=
  skipn (length (sent w)) (sent w').

(** Whether the transport's answer makes [sendRequest] fail before reading
    a body: a transport error, or a status outside the accepted list. *)
Definition dispatch_fails (answer : response + error) (expected : list Z) : bool :=
  match answer with
  | inr _ => true
  | inl r => negb (found_status (StatusCode r) (effective_status expected))
  end.

(** What [print_generic] prints for a body: the generic decoding, [nil]
    for [null] or a syntax error. *)
Definition printed_value (body : string) : option json :=
  match json_parse body with
  | Some JNull | None => None
  | Some j => Some j
  end.

Lemma URL_dispatched c req eh : URL (dispatched c req eh) = URL req.
Proof. unfold dispatched; destruct eh, (String.eqb (AuthToken c) ""); reflexivity. Qed.

Lemma sendRequest_unfold c req eh expected payload (w : world D) :
  sendRequest c req eh expected payload w =
  (send_result req expected payload (transport w (length (sent w))),
   record_sent w (dispatched c req eh)).
Proof.
  unfold send_result. rewrite <- (URL_dispatched c req eh).
  unfold sendRequest, bind, Do, ret, record_sent, ReadAll, dispatched.
  destruct (transport w (length (sent w))) as [r|e]; [|reflexivity].
  destruct expected as [|s0 rest]; cbn [effective_status length Nat.ltb Nat.leb];
  destruct (found_status (StatusCode r) _); cbn [negb andb];
  destruct (RespBodyErr r); reflexivity.
Qed.

Lemma found_status_In code l : found_status code l = true <-> In code l.
Proof.
  induction l as [|s0 l IH]; cbn; [split; [discriminate|tauto]|].
  destruct (Z.eqb_spec code s0); subst; [tauto|].
  rewrite IH; split; [tauto|]. intros [H|H]; [congruence|assumption].
Qed.

(** C3: with an empty [ExpectedStatus] a response is rejected as an
    unexpected status exactly when its code is not 200; with a non-empty
    list exactly when its code is not a member of the list. *)
Theorem sendRequest_status_classification c req eh expected payload (w : world D) resp :
  transport w (length (sent w)) = inl resp ->
  let err := snd (fst (sendRequest c req eh expected payload w)) in
  (expected = [] -> (is_unexpected_status err = true <-> StatusCode resp <> StatusOK)) /\
  (expected <> [] -> (is_unexpected_status err = true <-> ~ In (StatusCode resp) expected)).
Proof.
  intros Ht err. subst err. rewrite sendRequest_unfold, Ht. cbn [send_result fst snd].
  assert (Hcase : is_unexpected_status
            (snd (if found_status (StatusCode resp) (effective_status expected) then
                    match RespBodyErr resp with
                    | Some e => (RespBody resp, Some (WithContext "failed reading the response body" e))
                    | None => (RespBody resp, None)
                    end
                  else ("", Some (UnexpectedStatus (URL req) (Status resp) (error_info resp) payload))))
          = negb (found_status (StatusCode resp) (effective_status expected))).
  { destruct (found_status _ _); [destruct (RespBodyErr resp)|]; reflexivity. }
  rewrite Hcase. split; intros Hexp.
  - subst expected. cbn [effective_status].
    pose proof (found_status_In (StatusCode resp) [StatusOK]) as H.
    destruct (found_status (StatusCode resp) [StatusOK]); cbn [negb]; cbn [In] in H; split; intros H1.
    + discriminate.
    + destruct (proj1 H eq_refl) as [H2|[]]. congruence.
    + intros H2. assert (false = true) by (apply H; left; congruence). discriminate.
    + reflexivity.
  - assert (effective_status expected = expected) as ->
      by (destruct expected; [congruence|reflexivity]).
    pose proof (found_status_In (StatusCode resp) expected) as H.
    destruct (found_status (StatusCode resp) expected); cbn [negb]; split; intros H1.
    + discriminate H1.
    + exfalso. apply H1. apply H. reflexivity.
    + intros H2. apply H in H2. discriminate.
    + reflexivity.
Qed.

(** Looking a key up after appending a value under a key. *)
Lemma header_lookup_append h k v k' :
  header_lookup (header_append h k v) k' =
  if String.eqb k' k then (header_lookup h k' ++ [v])%list else header_lookup h k'.
Proof.
  induction h as [|[k0 vs] rest IH]; cbn.
  - destruct (String.eqb k' k); reflexivity.
  - destruct (String.eqb_spec k k0) as [->|Hne]; cbn.
    + destruct (String.eqb k' k0); reflexivity.
    + rewrite IH. destruct (String.eqb_spec k' k0) as [->|]; [|reflexivity].
      destruct (String.eqb_spec k0 k); [congruence|reflexivity].
Qed.

Lemma header_values_add h key value key' :
  header_values (header_add h key value) key' =
  if String.eqb (CanonicalMIMEHeaderKey key') (CanonicalMIMEHeaderKey key)
  then (header_values h key' ++ [value])%list else header_values h key'.
Proof. unfold header_values, header_add. apply header_lookup_append. Qed.

Lemma header_values_merge h eh key :
  header_values (merge_headers h eh) key =
  (header_values h key ++ extra_values (Some eh) key)%list.
Proof.
  unfold merge_headers, extra_values.
  revert h. induction eh as [|[k vs] rest IH]; intros h.
  - cbn. rewrite app_nil_r. reflexivity.
  - cbn [fold_left map concat fst snd]. rewrite IH, app_assoc. f_equal.
    revert h. induction vs as [|v vs IHv]; intros h; cbn [fold_left].
    + destruct (String.eqb _ _); rewrite app_nil_r; reflexivity.
    + rewrite IHv, header_values_add.
      destruct (String.eqb _ _); [|reflexivity].
      rewrite <- app_assoc. reflexivity.
Qed.

Lemma JsonRequest_unfold c method url reqData :
  JsonRequest c method url reqData =
  match json_build method url reqData with
  | inr err => ret (Some err)
  | inl (body, req) =>
      '(respBody, err) <- sendRequest c req (ReqHeaders reqData) (ExpectedStatus reqData) body ;;
      json_finish reqData respBody err
  end.
Proof.
  unfold JsonRequest, json_build, with_content_headers, json_finish.
  destruct (ReqValue reqData) as [v|]; [destruct (json_Marshal v)|];
  try destruct (NewRequest _ _ _); reflexivity.
Qed.

Lemma BinaryRequest_unfold c method url reqData :
  BinaryRequest c method url reqData =
  match binary_build method url reqData with
  | inr err => ret (Some err)
  | inl (payload, req) =>
      '(respBody, err) <- sendRequest c req (ReqHeaders reqData) (ExpectedStatus reqData) payload ;;
      binary_finish reqData respBody err
  end.
Proof.
  unfold BinaryRequest, binary_build, with_content_headers, binary_finish.
  destruct (ReqData reqData); destruct (NewRequest _ _ _); reflexivity.
Qed.

(** Running a façade: nothing happens before [sendRequest] when the build
    fails; otherwise [sendRequest] runs once and its result is finished. *)
Lemma run_facade (build : (string * request) + error)
    (finish : string -> option error -> M (option error)) c eh expected (w : world D) :
  (match build with
   | inr err => ret (Some err)
   | inl (body, req) =>
       '(respBody, err) <- sendRequest c req eh expected body ;; finish respBody err
   end) w =
  match build with
  | inr err => (Some err, w)
  | inl (body, req) =>
      let '(respBody, err) := send_result req expected body (transport w (length (sent w))) in
      finish respBody err (record_sent w (dispatched c req eh))
  end.
Proof.
  destruct build as [[body req]|err]; [|reflexivity].
  unfold bind. rewrite sendRequest_unfold.
  destruct (send_result _ _ _ _); reflexivity.
Qed.

Lemma json_finish_error reqData respBody e (w : world D) :
  json_finish reqData respBody (Some e) w = (Some e, w).
Proof. reflexivity. Qed.

Lemma json_finish_noop reqData respBody (w : world D) :
  respBody = "" \/ RespValue reqData = None ->
  json_finish reqData respBody None w = (None, w).
Proof.
  intros [->|H]; unfold json_finish; [reflexivity|].
  rewrite H. destruct (0 <? _)%nat; reflexivity.
Qed.

Lemma json_finish_frame reqData respBody err (w : world D) :
  let w' := snd (json_finish reqData respBody err w) in
  transport w' = transport w /\ sent w' = sent w /\ bytes_mem w' = bytes_mem w.
Proof.
  unfold json_finish, bind, ret, print_generic, unmarshal_into.
  destruct err; [cbn; auto|].
  destruct (0 <? _)%nat; [|cbn; auto].
  destruct (RespValue reqData); [|cbn; auto].
  cbn. destruct (json_Unmarshal _ _) as [d [e|]]; cbn; auto.
Qed.

Lemma binary_finish_error reqData respBody e (w : world D) :
  binary_finish reqData respBody (Some e) w = (Some e, w).
Proof. reflexivity. Qed.

Lemma binary_finish_noop reqData respBody (w : world D) :
  respBody = "" \/ RespData reqData = None ->
  binary_finish reqData respBody None w = (None, w).
Proof.
  intros [->|H]; unfold binary_finish; [reflexivity|].
  rewrite H. destruct (0 <? _)%nat; reflexivity.
Qed.

Lemma binary_finish_store reqData respBody p (w : world D) :
  respBody <> "" -> RespData reqData = Some p ->
  binary_finish reqData respBody None w =
  (None, mkWorld (transport w) (sent w)
           (fun q => if Nat.eqb q p then respBody else bytes_mem w q)
           (value_mem w) (stdout w)).
Proof.
  intros Hne Hp. unfold binary_finish. rewrite Hp.
  destruct respBody as [|ch rest]; [congruence|]. reflexivity.
Qed.

Lemma binary_finish_frame reqData respBody err (w : world D) :
  let w' := snd (binary_finish reqData respBody err w) in
  transport w' = transport w /\ sent w' = sent w /\ value_mem w' = value_mem w
  /\ stdout w' = stdout w.
Proof.
  unfold binary_finish, bind, ret, store_bytes.
  destruct err; [cbn; auto|].
  destruct (0 <? _)%nat; [|cbn; auto].
  destruct (RespData reqData); cbn; auto.
Qed.

(** Header values of the dispatched request. *)
Lemma header_values_dispatched c req eh key :
  header_values (Header (dispatched c req eh)) key =
  (header_values (Header req) key ++ extra_values eh key
   ++ (if negb (String.eqb (AuthToken c) "")
          && String.eqb (CanonicalMIMEHeaderKey key) "X-Auth-Token"
       then [AuthToken c] else []))%list.
Proof.
  unfold dispatched.
  assert (Hm : header_values (Header match eh with
                                     | Some h => with_header req (merge_headers (Header req) h)
                                     | None => req
                                     end) key
               = (header_values (Header req) key ++ extra_values eh key)%list).
  { destruct eh as [h|]; cbn [Header with_header].
    - apply header_values_merge.
    - cbn. rewrite app_nil_r. reflexivity. }
  destruct (String.eqb (AuthToken c) "") eqn:Ht; cbn [negb andb].
  - rewrite Hm, app_nil_r. reflexivity.
  - cbn [Header with_header]. rewrite header_values_add, Hm.
    change (CanonicalMIMEHeaderKey "X-Auth-Token") with "X-Auth-Token".
    destruct (String.eqb (CanonicalMIMEHeaderKey key) "X-Auth-Token");
      rewrite ?app_nil_r, ?app_assoc; reflexivity.
Qed.

(** C4: the request handed to the transport carries the caller's extra
    headers and then, when the token is not empty, the token appended as
    the last [X-Auth-Token] value; with an empty token no such value is
    added. *)
Theorem sendRequest_auth_token c req eh expected payload (w : world D) :
  let merged := match eh with
                | Some h => merge_headers (Header req) h
                | None => Header req
                end in
  exists r, sent (snd (sendRequest c req eh expected payload w)) = (sent w ++ [r])%list /\
    if String.eqb (AuthToken c) "" then Header r = merged
    else Header r = header_add merged "X-Auth-Token" (AuthToken c) /\
         header_values (Header r) "X-Auth-Token"
         = (header_values merged "X-Auth-Token" ++ [AuthToken c])%list.
Proof.
  intros merged. exists (dispatched c req eh).
  rewrite sendRequest_unfold. split; [reflexivity|].
  unfold dispatched, merged.
  destruct (String.eqb (AuthToken c) ""); cbn [negb].
  - destruct eh; reflexivity.
  - destruct eh; cbn [Header with_header]; split; try reflexivity;
      rewrite header_values_add; reflexivity.
Qed.

Lemma skipn_length_app {A} (l m : list A) : skipn (length l) (l ++ m) = m.
Proof. induction l; cbn; auto. Qed.

Lemma JsonRequest_sent c method url reqData (w : world D) :
  sent (snd (JsonRequest c method url reqData w)) =
  match json_build method url reqData with
  | inr _ => sent w
  | inl (_, req) => (sent w ++ [dispatched c req (ReqHeaders reqData)])%list
  end.
Proof.
  rewrite JsonRequest_unfold, run_facade.
  destruct (json_build _ _ _) as [[body req]|err]; [|reflexivity].
  destruct (send_result _ _ _ _) as [rb err].
  apply json_finish_frame.
Qed.

Lemma BinaryRequest_sent c method url reqData (w : world D) :
  sent (snd (BinaryRequest c method url reqData w)) =
  match binary_build method url reqData with
  | inr _ => sent w
  | inl (_, req) => (sent w ++ [dispatched c req (ReqHeaders reqData)])%list
  end.
Proof.
  rewrite BinaryRequest_unfold, run_facade.
  destruct (binary_build _ _ _) as [[body req]|err]; [|reflexivity].
  destruct (send_result _ _ _ _) as [rb err].
  apply binary_finish_frame.
Qed.

Lemma content_headers_new ctype method url body :
  forall req, NewRequest method url body = inl req ->
  header_values (Header (with_content_headers ctype req)) "Content-Type" = [ctype] /\
  header_values (Header (with_content_headers ctype req)) "Accept" = [ctype].
Proof.
  unfold NewRequest. intros req H.
  destruct (url_Parse url); inversion H; subst; split; reflexivity.
Qed.

Lemma json_build_headers method url reqData body req :
  json_build method url reqData = inl (body, req) ->
  header_values (Header req) "Content-Type" = ["application/json"] /\
  header_values (Header req) "Accept" = ["application/json"].
Proof.
  unfold json_build. intros H.
  destruct (ReqValue reqData) as [v|]; [destruct (json_Marshal v) as [b|e]|].
  all: try discriminate.
  all: destruct (NewRequest _ _ _) as [r|e] eqn:Hr; inversion H; subst;
       eapply content_headers_new; eassumption.
Qed.

Lemma binary_build_headers method url reqData body req :
  binary_build method url reqData = inl (body, req) ->
  header_values (Header req) "Content-Type" = ["application/octet-stream"] /\
  header_values (Header req) "Accept" = ["application/octet-stream"].
Proof.
  unfold binary_build. intros H.
  destruct (ReqData reqData);
  destruct (NewRequest _ _ _) as [r|e] eqn:Hr; inversion H; subst;
  eapply content_headers_new; eassumption.
Qed.

Lemma dispatched_content_headers c req eh ctype :
  header_values (Header req) "Content-Type" = [ctype] ->
  header_values (Header req) "Accept" = [ctype] ->
  header_values (Header (dispatched c req eh)) "Content-Type" = ctype :: extra_values eh "Content-Type" /\
  header_values (Header (dispatched c req eh)) "Accept" = ctype :: extra_values eh "Accept".
Proof.
  intros H1 H2. rewrite !header_values_dispatched, H1, H2.
  cbn [CanonicalMIMEHeaderKey]. rewrite !andb_false_r, !app_nil_r.
  split; reflexivity.
Qed.

(** C9: every request [JsonRequest] (resp. [BinaryRequest]) hands to the
    transport still has the [Content-Type] and [Accept] value the façade
    set, [application/json] (resp. [application/octet-stream]), as the
    first value, followed by the values the caller's extra headers give to
    the same (canonical) header name. *)
Theorem facade_content_headers_kept c method url reqData (w : world D) r :
  (In r (new_requests w (snd (JsonRequest c method url reqData w))) ->
   header_values (Header r) "Content-Type"
   = "application/json" :: extra_values (ReqHeaders reqData) "Content-Type" /\
   header_values (Header r) "Accept"
   = "application/json" :: extra_values (ReqHeaders reqData) "Accept") /\
  (In r (new_requests w (snd (BinaryRequest c method url reqData w))) ->
   header_values (Header r) "Content-Type"
   = "application/octet-stream" :: extra_values (ReqHeaders reqData) "Content-Type" /\
   header_values (Header r) "Accept"
   = "application/octet-stream" :: extra_values (ReqHeaders reqData) "Accept").
Proof.
  unfold new_requests. rewrite JsonRequest_sent, BinaryRequest_sent. split.
  - destruct (json_build _ _ _) as [[body req]|err] eqn:Hb.
    + rewrite skipn_length_app. intros [<-|[]].
      destruct (json_build_headers _ _ _ _ _ Hb).
      apply dispatched_content_headers; assumption.
    + rewrite skipn_all. intros [].
  - destruct (binary_build _ _ _) as [[body req]|err] eqn:Hb.
    + rewrite skipn_length_app. intros [<-|[]].
      destruct (binary_build_headers _ _ _ _ _ Hb).
      apply dispatched_content_headers; assumption.
    + rewrite skipn_all. intros [].
Qed.

(** C7: when [ReqValue] cannot be encoded, [JsonRequest] returns the
    encoding error with its marshalling context and leaves the world as it
    was: no request is handed to the transport and no destination is
    written. *)
Theorem JsonRequest_marshal_failure c method url reqData (w : world D) v e :
  ReqValue reqData = Some v -> json_Marshal v = inr e ->
  JsonRequest c method url reqData w
  = (Some (WithContext "failed marshalling the request body" e), w).
Proof. intros Hv He. unfold JsonRequest. rewrite Hv, He. reflexivity. Qed.

Lemma send_result_failure req expected payload answer :
  dispatch_fails answer expected = true ->
  exists e, send_result req expected payload answer = ("", Some e).
Proof.
  unfold dispatch_fails, send_result. intros H.
  destruct answer as [r|e]; [|eexists; reflexivity].
  destruct (found_status _ _); [discriminate|eexists; reflexivity].
Qed.

Lemma send_result_success req expected payload resp :
  found_status (StatusCode resp) (effective_status expected) = true ->
  RespBodyErr resp = None ->
  send_result req expected payload (inl resp) = (RespBody resp, None).
Proof. intros Hf Hb. unfold send_result. rewrite Hf, Hb. reflexivity. Qed.

(** The façades after a failed dispatch: an error, and the memories as
    they were. *)
Lemma JsonRequest_dispatch_failure c method url reqData (w : world D) :
  dispatch_fails (transport w (length (sent w))) (ExpectedStatus reqData) = true ->
  let '(err, w') := JsonRequest c method url reqData w in
  err <> None /\ bytes_mem w' = bytes_mem w /\ value_mem w' = value_mem w
  /\ stdout w' = stdout w.
Proof.
  intros Hf. rewrite JsonRequest_unfold, run_facade.
  destruct (json_build _ _ _) as [[body req]|err].
  - destruct (send_result_failure req _ body _ Hf) as [e ->].
    rewrite json_finish_error. cbn. repeat split; congruence.
  - repeat split; congruence.
Qed.

Lemma BinaryRequest_dispatch_failure c method url reqData (w : world D) :
  dispatch_fails (transport w (length (sent w))) (ExpectedStatus reqData) = true ->
  let '(err, w') := BinaryRequest c method url reqData w in
  err <> None /\ bytes_mem w' = bytes_mem w /\ value_mem w' = value_mem w
  /\ stdout w' = stdout w.
Proof.
  intros Hf. rewrite BinaryRequest_unfold, run_facade.
  destruct (binary_build _ _ _) as [[body req]|err].
  - destruct (send_result_failure req _ body _ Hf) as [e ->].
    rewrite binary_finish_error. cbn. repeat split; congruence.
  - repeat split; congruence.
Qed.

(** C10: when the transport fails or answers with a status that is not
    accepted, [sendRequest] returns an error with an empty body, and
    [JsonRequest] and [BinaryRequest] return an error leaving every
    [*[]byte] and every [RespValue] target unchanged. *)
Theorem dispatch_failure_keeps_destinations c method url reqData (w : world D) :
  dispatch_fails (transport w (length (sent w))) (ExpectedStatus reqData) = true ->
  (forall req eh payload,
     let '(respBody, err) :=
       fst (sendRequest c req eh (ExpectedStatus reqData) payload w) in
     respBody = "" /\ err <> None) /\
  (let '(err, w') := JsonRequest c method url reqData w in
   err <> None /\ bytes_mem w' = bytes_mem w /\ value_mem w' = value_mem w) /\
  (let '(err, w') := BinaryRequest c method url reqData w in
   err <> None /\ bytes_mem w' = bytes_mem w /\ value_mem w' = value_mem w).
Proof.
  intros Hf. split; [|split].
  - intros req eh payload. rewrite sendRequest_unfold. cbn [fst].
    destruct (send_result_failure req _ payload _ Hf) as [e ->].
    split; [reflexivity|discriminate].
  - pose proof (JsonRequest_dispatch_failure c method url reqData w Hf) as H.
    destruct (JsonRequest _ _ _ _ _). tauto.
  - pose proof (BinaryRequest_dispatch_failure c method url reqData w Hf) as H.
    destruct (BinaryRequest _ _ _ _ _). tauto.
Qed.

Lemma json_build_ok method url reqData u' :
  url_Parse (with_params url reqData) = inl u' ->
  (forall v, ReqValue reqData = Some v -> exists body, json_Marshal v = inl body) ->
  exists body req, json_build method url reqData = inl (body, req).
Proof.
  intros Hu Hm. unfold json_build, NewRequest. rewrite Hu.
  destruct (ReqValue reqData) as [v|].
  - destruct (Hm v eq_refl) as [body ->]. eauto.
  - eauto.
Qed.

Lemma binary_build_ok method url reqData u' :
  url_Parse (with_params url reqData) = inl u' ->
  exists payload req, binary_build method url reqData = inl (payload, req).
Proof.
  intros Hu. unfold binary_build, NewRequest. rewrite Hu.
  destruct (ReqData reqData); eauto.
Qed.

(** C8: when the request is sent and answered with an accepted status
    whose body is read, a façade whose destination is [nil] (or that gets
    an empty body) returns [nil] and neither decodes nor writes anything:
    [JsonRequest] never touches a [RespData] target, [BinaryRequest] never
    a [RespValue] target. *)
Theorem facade_absent_destination_noop c method url reqData (w : world D) resp u' :
  url_Parse (with_params url reqData) = inl u' ->
  transport w (length (sent w)) = inl resp ->
  found_status (StatusCode resp) (effective_status (ExpectedStatus reqData)) = true ->
  RespBodyErr resp = None ->
  ((forall v, ReqValue reqData = Some v -> exists body, json_Marshal v = inl body) ->
   RespBody resp = "" \/ RespValue reqData = None ->
   let '(err, w') := JsonRequest c method url reqData w in
   err = None /\ bytes_mem w' = bytes_mem w /\ value_mem w' = value_mem w
   /\ stdout w' = stdout w) /\
  (RespBody resp = "" \/ RespData reqData = None ->
   let '(err, w') := BinaryRequest c method url reqData w in
   err = None /\ bytes_mem w' = bytes_mem w /\ value_mem w' = value_mem w
   /\ stdout w' = stdout w).
Proof.
  intros Hu Ht Hf Hb. split.
  - intros Hm Hd. rewrite JsonRequest_unfold, run_facade.
    destruct (json_build_ok method url reqData u' Hu Hm) as (body & req & ->).
    rewrite Ht, send_result_success by assumption.
    rewrite json_finish_noop by assumption. cbn. auto.
  - intros Hd. rewrite BinaryRequest_unfold, run_facade.
    destruct (binary_build_ok method url reqData u' Hu) as (payload & req & ->).
    rewrite Ht, send_result_success by assumption.
    rewrite binary_finish_noop by assumption. cbn. auto.
Qed.

(** C5 (as amended): when [BinaryRequest] sends its request and the
    response has an accepted status and a body read in full, the call
    returns [nil]; the [*[]byte] destination then holds the response body
    byte for byte when that body is not empty, and is left as it was when
    it is empty; no other [*[]byte] changes. *)
Theorem BinaryRequest_stores_body c method url reqData (w : world D) resp u' p :
  url_Parse (with_params url reqData) = inl u' ->
  transport w (length (sent w)) = inl resp ->
  found_status (StatusCode resp) (effective_status (ExpectedStatus reqData)) = true ->
  RespBodyErr resp = None ->
  RespData reqData = Some p ->
  let '(err, w') := BinaryRequest c method url reqData w in
  err = None /\
  bytes_mem w' p = (if String.eqb (RespBody resp) "" then bytes_mem w p else RespBody resp) /\
  (forall q, q <> p -> bytes_mem w' q = bytes_mem w q).
Proof.
  intros Hu Ht Hf Hb Hp. rewrite BinaryRequest_unfold, run_facade.
  destruct (binary_build_ok method url reqData u' Hu) as (payload & req & ->).
  rewrite Ht, send_result_success by assumption.
  destruct (String.eqb_spec (RespBody resp) "") as [He|Hne].
  - rewrite binary_finish_noop by (left; assumption). cbn. auto.
  - rewrite (binary_finish_store _ _ p) by assumption. cbn.
    rewrite Nat.eqb_refl. split; [reflexivity|split; [reflexivity|]].
    intros q Hq. apply Nat.eqb_neq in Hq. rewrite Hq. reflexivity.
Qed.

Lemma equal_fold_names k a b :
  equal_fold k a = true -> equal_fold k b = String.eqb (fold_name a) (fold_name b).
Proof. unfold equal_fold. intros H. apply String.eqb_eq in H. rewrite H. reflexivity. Qed.

Lemma equal_fold_other k a b :
  equal_fold k a = true -> String.eqb (fold_name a) (fold_name b) = false ->
  equal_fold k b = false.
Proof. intros H Hab. rewrite (equal_fold_names k a b H). exact Hab. Qed.

(** A key that names one field names no other field. *)
Ltac fold_facts :=
  repeat match goal with
  | H : equal_fold ?k ?a = true |- context [equal_fold ?k ?a] => rewrite H
  | H : equal_fold ?k ?a = true |- context [equal_fold ?k ?b] =>
      rewrite (equal_fold_other k a b H eq_refl)
  end.

Lemma last_or_app {A : Type} (d : A) l1 l2 :
  last_or d (l1 ++ l2) = last_or (last_or d l1) l2.
Proof. unfold last_or. rewrite rev_app_distr. destruct (rev l2); reflexivity. Qed.

Lemma string_values_cons name k v ms :
  string_values name ((k, v) :: ms) =
  ((if equal_fold k name then match v with JString s => [s] | _ => [] end else [])
   ++ string_values name ms)%list.
Proof. reflexivity. Qed.

Lemma int_values_cons name k v ms :
  int_values name ((k, v) :: ms) =
  ((if equal_fold k name
    then match v with
         | JNumber lit => match parse_int64 lit with Some z => [z] | None => [] end
         | _ => []
         end
    else []) ++ int_values name ms)%list.
Proof. reflexivity. Qed.

Lemma error_fields_cons k v ms :
  error_fields ((k, v) :: ms) =
  ((if equal_fold k "error" then match v with JObject ms' => ms' | _ => [] end else [])
   ++ error_fields ms)%list.
Proof. reflexivity. Qed.

Lemma string_values_app name l1 l2 :
  string_values name (l1 ++ l2) = (string_values name l1 ++ string_values name l2)%list.
Proof. unfold string_values. apply flat_map_app. Qed.

Lemma int_values_app name l1 l2 :
  int_values name (l1 ++ l2) = (int_values name l1 ++ int_values name l2)%list.
Proof. unfold int_values. apply flat_map_app. Qed.

(** Decoding the members of an object into an [ErrorResponse]: each field
    ends with the last value given for it, and no type error is recorded
    exactly when every member fits its field. *)
Lemma decode_ErrorResponse_members_spec ms : forall e,
  decode_ErrorResponse_members ms e =
  (mkErrorResponse (last_or (Message e) (string_values "message" ms))
                   (last_or (Code e) (int_values "code" ms))
                   (last_or (Title e) (string_values "title" ms)),
   forallb error_member_ok ms).
Proof.
  induction ms as [|[k v] ms IH]; intros e; [destruct e; reflexivity|].
  cbn [decode_ErrorResponse_members forallb].
  rewrite !string_values_cons, int_values_cons, !last_or_app.
  unfold error_member_ok. cbn [fst snd].
  destruct (equal_fold k "message") eqn:Hm; [fold_facts|].
  { destruct v; cbn [decode_string]; rewrite IH; reflexivity. }
  destruct (equal_fold k "code") eqn:Hc; [fold_facts|].
  { destruct v; cbn [decode_int int_or_null]; rewrite ?IH; try reflexivity.
    destruct (parse_int64 lit); rewrite IH; reflexivity. }
  destruct (equal_fold k "title") eqn:Ht.
  { destruct v; cbn [decode_string]; rewrite IH; reflexivity. }
  rewrite IH. reflexivity.
Qed.

(** Decoding the top-level object: the fields take the last values given
    across its ["error"] objects. *)
Lemma decode_ErrorWrapper_members_spec ms : forall e,
  decode_ErrorWrapper_members ms e =
  (mkErrorResponse (last_or (Message e) (string_values "message" (error_fields ms)))
                   (last_or (Code e) (int_values "code" (error_fields ms)))
                   (last_or (Title e) (string_values "title" (error_fields ms))),
   forallb wrapper_member_ok ms).
Proof.
  induction ms as [|[k v] ms IH]; intros e; [destruct e; reflexivity|].
  cbn [decode_ErrorWrapper_members forallb].
  rewrite error_fields_cons, !string_values_app, int_values_app, !last_or_app.
  unfold wrapper_member_ok. cbn [fst snd].
  destruct (equal_fold k "error") eqn:He; cbn [negb orb].
  - destruct v; cbn [decode_ErrorResponse]; rewrite ?IH; try reflexivity.
    rewrite decode_ErrorResponse_members_spec, IH. reflexivity.
  - rewrite IH. reflexivity.
Qed.

(** [json.Unmarshal] into an [ErrorWrapper], against the wire contract:
    it succeeds exactly on the documents [envelope_ok] accepts, giving
    [envelope_value]. *)
Lemma Unmarshal_ErrorWrapper_spec body :
  Unmarshal_ErrorWrapper body =
  match json_parse body with
  | Some j => if envelope_ok j then Some (envelope_value j) else None
  | None => None
  end.
Proof.
  unfold Unmarshal_ErrorWrapper. destruct (json_parse body) as [j|]; [|reflexivity].
  destruct j; try reflexivity. cbn [envelope_ok envelope_value].
  rewrite decode_ErrorWrapper_members_spec. destruct (forallb _ _); reflexivity.
Qed.

(** The envelope with its three members in any order and its keys in any
    case decodes to its triple. *)
Lemma Unmarshal_ErrorWrapper_envelope_any_order body ke km kc kt ms' m lit code t :
  equal_fold ke "error" = true -> equal_fold km "message" = true ->
  equal_fold kc "code" = true -> equal_fold kt "title" = true ->
  Permutation ms' [(km, JString m); (kc, JNumber lit); (kt, JString t)] ->
  json_parse body = Some (JObject [(ke, JObject ms')]) ->
  parse_int64 lit = Some code ->
  Unmarshal_ErrorWrapper body = Some (mkErrorResponse m code t).
Proof.
  intros He Hm Hc Ht Hperm Hp Hl.
  rewrite Unmarshal_ErrorWrapper_spec, Hp. cbn [envelope_ok envelope_value forallb].
  unfold wrapper_member_ok. cbn [fst snd]. rewrite He. cbn [negb orb].
  assert (Hok : forallb error_member_ok ms' = true).
  { apply forallb_forall. intros kv Hin.
    apply (Permutation_in _ Hperm) in Hin.
    destruct Hin as [<-|[<-|[<-|[]]]]; unfold error_member_ok; cbn [fst snd];
      fold_facts; cbn; rewrite ?Hl; reflexivity. }
  rewrite Hok. unfold error_fields. cbn [flat_map fst snd]. rewrite He, app_nil_r.
  set (l3 := [(km, JString m); (kc, JNumber lit); (kt, JString t)]) in Hperm.
  assert (Pm : Permutation (string_values "message" l3) (string_values "message" ms'))
    by (apply Permutation_flat_map, Permutation_sym, Hperm).
  assert (Pt : Permutation (string_values "title" l3) (string_values "title" ms'))
    by (apply Permutation_flat_map, Permutation_sym, Hperm).
  assert (Pc : Permutation (int_values "code" l3) (int_values "code" ms'))
    by (apply Permutation_flat_map, Permutation_sym, Hperm).
  subst l3. rewrite !string_values_cons in Pm, Pt. rewrite !int_values_cons in Pc.
  revert Pm Pt Pc. fold_facts. rewrite Hl. cbn [app]. intros Pm Pt Pc.
  apply Permutation_length_1_inv in Pm, Pt, Pc.
  rewrite Pm, Pt, Pc. reflexivity.
Qed.

Lemma decode_ErrorWrapper_members_skip ms e :
  Forall (fun kv => equal_fold (fst kv) "error" = false) ms ->
  decode_ErrorWrapper_members ms e = (e, true).
Proof.
  induction 1 as [|[k v] ms Hk _ IH]; [reflexivity|].
  cbn [fst decode_ErrorWrapper_members] in Hk |- *. rewrite Hk, IH. reflexivity.
Qed.

(** Any object without an ["error"] member, and [null], decode to the zero
    [ErrorResponse]. *)
Lemma Unmarshal_ErrorWrapper_no_error_member body ms :
  json_parse body = Some (JObject ms) ->
  Forall (fun kv => equal_fold (fst kv) "error" = false) ms ->
  Unmarshal_ErrorWrapper body = Some ErrorResponse_zero.
Proof.
  intros Hp Hf. unfold Unmarshal_ErrorWrapper. rewrite Hp.
  rewrite decode_ErrorWrapper_members_skip by assumption. reflexivity.
Qed.

Lemma Unmarshal_ErrorWrapper_null body :
  json_parse body = Some JNull -> Unmarshal_ErrorWrapper body = Some ErrorResponse_zero.
Proof. intros Hp. unfold Unmarshal_ErrorWrapper. rewrite Hp. reflexivity. Qed.

(** For a response with a status that is not accepted, the error carries
    the raw body, unless the response's first [Content-Type] value is
    exactly [application/json] and [json.Unmarshal] into an [ErrorWrapper]
    succeeds, in which case it carries the decoded [Error]. *)
Lemma sendRequest_unexpected_detail c req eh expected payload (w : world D) resp :
  transport w (length (sent w)) = inl resp ->
  found_status (StatusCode resp) (effective_status expected) = false ->
  fst (sendRequest c req eh expected payload w)
  = ("", Some (UnexpectedStatus (URL req) (Status resp)
                 (if String.eqb (header_get (RespHeader resp) "Content-Type") "application/json"
                  then match Unmarshal_ErrorWrapper (RespBody resp) with
                       | Some e => InfoStructured e
                       | None => InfoRaw (RespBody resp)
                       end
                  else InfoRaw (RespBody resp)) payload)).
Proof.
  intros Ht Hf. rewrite sendRequest_unfold, Ht. cbn [fst send_result].
  rewrite Hf. reflexivity.
Qed.

(** C2 (as amended): for a response with a status that is not accepted,
    [sendRequest] always produces the unexpected-status error (computing
    its detail cannot fail) and an empty body.  The detail is the decoded
    [(message, code, title)] when the first [Content-Type] value is exactly
    [application/json] and [json.Unmarshal] into [ErrorWrapper] succeeds,
    and the raw body bytes otherwise.  That decoding succeeds exactly on
    [null] and on the objects whose ["error"] members (keys compared up to
    case folding) are [null] or objects whose ["message"] and ["title"]
    members are strings or [null] and whose ["code"] members are [null] or
    64-bit integers; each field then holds the last value given for it,
    and its zero value when there is none.  So the envelope, with its
    members in any order and its keys in any case, gives its triple, and
    [null] or an object with no ["error"] member gives [("", 0, "")]. *)
Theorem sendRequest_error_detail c req eh expected payload (w : world D) resp :
  transport w (length (sent w)) = inl resp ->
  found_status (StatusCode resp) (effective_status expected) = false ->
  fst (sendRequest c req eh expected payload w)
  = ("", Some (UnexpectedStatus (URL req) (Status resp)
                 (if String.eqb (header_get (RespHeader resp) "Content-Type") "application/json"
                  then match Unmarshal_ErrorWrapper (RespBody resp) with
                       | Some e => InfoStructured e
                       | None => InfoRaw (RespBody resp)
                       end
                  else InfoRaw (RespBody resp)) payload)) /\
  Unmarshal_ErrorWrapper (RespBody resp) =
  (match json_parse (RespBody resp) with
   | Some j => if envelope_ok j then Some (envelope_value j) else None
   | None => None
   end) /\
  (forall ke km kc kt ms' m lit code t,
     equal_fold ke "error" = true -> equal_fold km "message" = true ->
     equal_fold kc "code" = true -> equal_fold kt "title" = true ->
     Permutation ms' [(km, JString m); (kc, JNumber lit); (kt, JString t)] ->
     json_parse (RespBody resp) = Some (JObject [(ke, JObject ms')]) ->
     parse_int64 lit = Some code ->
     Unmarshal_ErrorWrapper (RespBody resp) = Some (mkErrorResponse m code t)) /\
  (json_parse (RespBody resp) = Some JNull ->
   Unmarshal_ErrorWrapper (RespBody resp) = Some ErrorResponse_zero) /\
  (forall ms, json_parse (RespBody resp) = Some (JObject ms) ->
   Forall (fun kv => equal_fold (fst kv) "error" = false) ms ->
   Unmarshal_ErrorWrapper (RespBody resp) = Some ErrorResponse_zero).
Proof.
  intros Ht Hf. split; [|split; [|split; [|split]]].
  - apply sendRequest_unexpected_detail; assumption.
  - apply Unmarshal_ErrorWrapper_spec.
  - intros ke km kc kt ms' m lit code t.
    apply Unmarshal_ErrorWrapper_envelope_any_order.
  - apply Unmarshal_ErrorWrapper_null.
  - intros ms. apply Unmarshal_ErrorWrapper_no_error_member.
Qed.

Lemma found_status_429 expected :
  ~ In 429 expected -> found_status 429 (effective_status expected) = false.
Proof.
  intros Hn. destruct expected as [|s0 rest]; [reflexivity|].
  cbn [effective_status].
  destruct (found_status 429 (s0 :: rest)) eqn:Hf; [|reflexivity].
  apply found_status_In in Hf. contradiction.
Qed.

(** C6 (as amended): against a transport that answers "too many requests"
    to every request, a call whose [ExpectedStatus] does not list 429
    returns an error, from [JsonRequest] as from [BinaryRequest]. *)
Theorem throttled_call_fails c method url reqData (w : world D) :
  (forall n, exists r, transport w n = inl r /\ StatusCode r = 429) ->
  ~ In 429 (ExpectedStatus reqData) ->
  fst (JsonRequest c method url reqData w) <> None /\
  fst (BinaryRequest c method url reqData w) <> None.
Proof.
  intros Ht Hn.
  assert (Hf : dispatch_fails (transport w (length (sent w))) (ExpectedStatus reqData) = true).
  { destruct (Ht (length (sent w))) as (r & -> & Hc). cbn [dispatch_fails].
    rewrite Hc, found_status_429 by assumption. reflexivity. }
  pose proof (JsonRequest_dispatch_failure c method url reqData w Hf) as Hj.
  pose proof (BinaryRequest_dispatch_failure c method url reqData w Hf) as Hb.
  destruct (JsonRequest _ _ _ _ _), (BinaryRequest _ _ _ _ _). cbn. tauto.
Qed.

Lemma json_finish_stdout reqData respBody err (w : world D) :
  stdout (snd (json_finish reqData respBody err w)) =
  match err, RespValue reqData with
  | None, Some _ =>
      if (0 <? String.length respBody)%nat
      then (stdout w ++ [printed_value respBody])%list else stdout w
  | _, _ => stdout w
  end.
Proof.
  unfold json_finish, bind, ret, print_generic, unmarshal_into, printed_value.
  destruct err; [reflexivity|].
  destruct (RespValue reqData); destruct (0 <? _)%nat; try reflexivity.
  cbn. destruct (json_Unmarshal _ _) as [d [e|]]; reflexivity.
Qed.

(** X7: [JsonRequest] makes at most one [fmt.Println] call, which prints
    the generic decoding of the body of the response to the request it
    sent, and only when the call is given a [RespValue] target and the
    body is not empty; [BinaryRequest] never prints. *)
Theorem facade_stdout c method url reqData (w : world D) :
  (stdout (snd (JsonRequest c method url reqData w)) = stdout w \/
   exists resp, transport w (length (sent w)) = inl resp /\
     RespValue reqData <> None /\ RespBody resp <> "" /\
     stdout (snd (JsonRequest c method url reqData w))
     = (stdout w ++ [printed_value (RespBody resp)])%list) /\
  stdout (snd (BinaryRequest c method url reqData w)) = stdout w.
Proof.
  split.
  - rewrite JsonRequest_unfold, run_facade.
    destruct (json_build method url reqData) as [[body req]|err]; [|left; reflexivity].
    unfold send_result.
    destruct (transport w (length (sent w))) as [resp|e] eqn:Ht; [|left; reflexivity].
    destruct (found_status _ _); [|left; reflexivity].
    destruct (RespBodyErr resp); [left; reflexivity|].
    rewrite json_finish_stdout. cbn [record_sent stdout].
    destruct (RespValue reqData) as [p|] eqn:Hv; [|left; reflexivity].
    destruct (RespBody resp) as [|ch rest] eqn:Hb; [left; reflexivity|].
    right. exists resp. rewrite Hb. split; [reflexivity|]. split; [congruence|].
    split; [discriminate|]. reflexivity.
  - rewrite BinaryRequest_unfold, run_facade.
    destruct (binary_build method url reqData) as [[body req]|err]; [|reflexivity].
    destruct (send_result _ _ _ _) as [rb err].
    destruct (binary_finish_frame reqData rb err (record_sent w (dispatched c req (ReqHeaders reqData))))
      as (_ & _ & _ & H). rewrite H. reflexivity.
Qed.

Lemma json_build_url method url reqData body req :
  json_build method url reqData = inl (body, req) ->
  url_Parse (with_params url reqData) = inl (URL req).
Proof.
  intros H. unfold json_build, NewRequest in H.
  destruct (ReqValue reqData) as [v|]; [destruct (json_Marshal v) as [b|e]; [|discriminate H]|];
  destruct (url_Parse (with_params url reqData)) as [u|e]; inversion H; reflexivity.
Qed.

Lemma binary_build_url method url reqData payload req :
  binary_build method url reqData = inl (payload, req) ->
  url_Parse (with_params url reqData) = inl (URL req).
Proof.
  intros H. unfold binary_build, NewRequest in H.
  destruct (ReqData reqData);
  destruct (url_Parse (with_params url reqData)) as [u|e]; inversion H; reflexivity.
Qed.

Lemma JsonRequest_new_requests c method url reqData (w : world D) :
  new_requests w (snd (JsonRequest c method url reqData w)) =
  match json_build method url reqData with
  | inr _ => []
  | inl (_, req) => [dispatched c req (ReqHeaders reqData)]
  end.
Proof.
  unfold new_requests. rewrite JsonRequest_sent.
  destruct (json_build _ _ _) as [[body req]|err]; [apply skipn_length_app|].
  apply skipn_all.
Qed.

Lemma BinaryRequest_new_requests c method url reqData (w : world D) :
  new_requests w (snd (BinaryRequest c method url reqData w)) =
  match binary_build method url reqData with
  | inr _ => []
  | inl (_, req) => [dispatched c req (ReqHeaders reqData)]
  end.
Proof.
  unfold new_requests. rewrite BinaryRequest_sent.
  destruct (binary_build _ _ _) as [[body req]|err]; [apply skipn_length_app|].
  apply skipn_all.
Qed.

(** A request a façade sends goes to the parse of the URL with its query. *)
Lemma facade_sent_url c method url reqData (w : world D) r :
  In r (new_requests w (snd (JsonRequest c method url reqData w))) \/
  In r (new_requests w (snd (BinaryRequest c method url reqData w))) ->
  url_Parse (with_params url reqData) = inl (URL r).
Proof.
  rewrite JsonRequest_new_requests, BinaryRequest_new_requests.
  intros [H|H].
  - destruct (json_build method url reqData) as [[body req]|err] eqn:Hb; [|destruct H].
    destruct H as [<-|[]]. rewrite URL_dispatched. exact (json_build_url _ _ _ _ _ Hb).
  - destruct (binary_build method url reqData) as [[body req]|err] eqn:Hb; [|destruct H].
    destruct H as [<-|[]]. rewrite URL_dispatched. exact (binary_build_url _ _ _ _ _ Hb).
Qed.

(** X6: a façade call hands at most one request to the transport, whose
    URL is what [url.Parse] gives for the URL with its query; once the URL
    parses (and, for [JsonRequest], the value marshals) exactly one request
    is sent. *)
Theorem facade_one_request c method url reqData (w : world D) u' :
  (length (new_requests w (snd (JsonRequest c method url reqData w))) <= 1)%nat /\
  (length (new_requests w (snd (BinaryRequest c method url reqData w))) <= 1)%nat /\
  (forall r, In r (new_requests w (snd (JsonRequest c method url reqData w))) \/
             In r (new_requests w (snd (BinaryRequest c method url reqData w))) ->
             url_Parse (with_params url reqData) = inl (URL r)) /\
  (url_Parse (with_params url reqData) = inl u' ->
   (forall v, ReqValue reqData = Some v -> exists body, json_Marshal v = inl body) ->
   exists r, new_requests w (snd (JsonRequest c method url reqData w)) = [r] /\ URL r = u') /\
  (url_Parse (with_params url reqData) = inl u' ->
   exists r, new_requests w (snd (BinaryRequest c method url reqData w)) = [r] /\ URL r = u').
Proof.
  split; [|split; [|split; [|split]]].
  - rewrite JsonRequest_new_requests.
    destruct (json_build _ _ _) as [[? ?]|?]; cbn; lia.
  - rewrite BinaryRequest_new_requests.
    destruct (binary_build _ _ _) as [[? ?]|?]; cbn; lia.
  - intros r. apply facade_sent_url.
  - intros Hu Hm. destruct (json_build_ok method url reqData u' Hu Hm) as (body & req & Hb).
    rewrite JsonRequest_new_requests, Hb.
    exists (dispatched c req (ReqHeaders reqData)). split; [reflexivity|].
    rewrite URL_dispatched. apply json_build_url in Hb. congruence.
  - intros Hu. destruct (binary_build_ok method url reqData u' Hu) as (payload & req & Hb).
    rewrite BinaryRequest_new_requests, Hb.
    exists (dispatched c req (ReqHeaders reqData)). split; [reflexivity|].
    rewrite URL_dispatched. apply binary_build_url in Hb. congruence.
Qed.

(** X5: when the sent request is answered with a status that is not
    accepted, a façade returns the unexpected-status error naming the
    parsed URL, the response status, the error detail of the response, and
    as request body the marshalled value ([JsonRequest], [""] without a
    value) or [ReqData] ([BinaryRequest], [""] when [nil]). *)
Theorem facade_unexpected_status c method url reqData (w : world D) u' resp body :
  url_Parse (with_params url reqData) = inl u' ->
  transport w (length (sent w)) = inl resp ->
  found_status (StatusCode resp) (effective_status (ExpectedStatus reqData)) = false ->
  (match ReqValue reqData with Some v => json_Marshal v = inl body | None => body = "" end ->
   fst (JsonRequest c method url reqData w)
   = Some (UnexpectedStatus u' (Status resp) (error_info resp) body)) /\
  fst (BinaryRequest c method url reqData w)
  = Some (UnexpectedStatus u' (Status resp) (error_info resp)
            (match ReqData reqData with Some d => d | None => "" end)).
Proof.
  intros Hu Ht Hf. split.
  - intros Hm. rewrite JsonRequest_unfold, run_facade.
    assert (Hb : json_build method url reqData
                 = inl (body, with_content_headers "application/json"
                          (mkRequest method u' []
                             (match ReqValue reqData with Some _ => Some body | None => None end)))).
    { unfold json_build, NewRequest.
      destruct (ReqValue reqData) as [v|]; [rewrite Hm, Hu; reflexivity|subst body; rewrite Hu; reflexivity]. }
    rewrite Hb. unfold send_result. rewrite Ht, Hf. reflexivity.
  - rewrite BinaryRequest_unfold, run_facade.
    assert (Hb : binary_build method url reqData
                 = inl (match ReqData reqData with Some d => d | None => "" end,
                        with_content_headers "application/octet-stream"
                          (mkRequest method u' [] (ReqData reqData)))).
    { unfold binary_build, NewRequest. destruct (ReqData reqData); rewrite Hu; reflexivity. }
    rewrite Hb. unfold send_result. rewrite Ht, Hf. reflexivity.
Qed.

End HttpClient.

Lemma digit_char_spec m : (m < 10)%N ->
  is_digit (digit_char m) = true /\
  Z.of_nat (nat_of_ascii (digit_char m)) - 48 = Z.of_N m.
Proof.
  intros H.
  assert (m = 0 \/ m = 1 \/ m = 2 \/ m = 3 \/ m = 4 \/ m = 5 \/ m = 6 \/ m = 7
          \/ m = 8 \/ m = 9)%N as Hm by lia.
  repeat destruct Hm as [->|Hm]; [..|subst m]; split; reflexivity.
Qed.

Lemma digits_value_dec_digits f : forall n acc,
  (n < 10 ^ N.of_nat f)%N ->
  exists k, forall a, digits_value (dec_digits f n acc) a
                      = digits_value acc (a * 10 ^ Z.of_nat k + Z.of_N n).
Proof.
  induction f as [|f IH]; intros n acc Hn.
  - cbn in Hn. exists O. intros a. assert (n = 0%N) as -> by lia.
    cbn. f_equal; lia.
  - cbn [dec_digits].
    assert (Hd : (n mod 10 < 10)%N) by (apply N.mod_lt; lia).
    destruct (digit_char_spec _ Hd) as [Hdig Hval].
    assert (Hstep : forall a, digits_value (String (digit_char (n mod 10)) acc) a
                              = digits_value acc (a * 10 + Z.of_N (n mod 10))).
    { intros a. cbn [digits_value]. rewrite Hdig, Hval. reflexivity. }
    destruct (N.ltb_spec n 10) as [Hlt|Hge].
    + exists 1%nat. intros a. rewrite Hstep. rewrite N.mod_small by lia.
      f_equal; lia.
    + assert (Hq : (n / 10 < 10 ^ N.of_nat f)%N).
      { rewrite Nat2N.inj_succ, N.pow_succ_r' in Hn.
        apply N.Div0.div_lt_upper_bound. lia. }
      destruct (IH (n / 10)%N (String (digit_char (n mod 10)) acc) Hq) as [k Hk].
      exists (S k). intros a. rewrite Hk, Hstep. f_equal.
      pose proof (N.div_mod n 10 ltac:(lia)) as Hdm.
      rewrite Nat2Z.inj_succ, Z.pow_succ_r by lia.
      rewrite Hdm at 3. rewrite N2Z.inj_add, N2Z.inj_mul. lia.
Qed.

Lemma format_N_fuel n : (n < 10 ^ N.of_nat (S (N.to_nat (N.size n))))%N.
Proof.
  rewrite Nat2N.inj_succ, N2Nat.id.
  pose proof (N.size_gt n) as H.
  assert (2 ^ N.size n <= 10 ^ N.size n)%N by (apply N.pow_le_mono_l; lia).
  assert (10 ^ N.size n <= 10 ^ N.succ (N.size n))%N
    by (apply N.pow_le_mono_r; lia).
  lia.
Qed.

Lemma digits_value_format_N n : digits_value (format_N n) 0 = Some (Z.of_N n).
Proof.
  unfold format_N. destruct (digits_value_dec_digits _ n "" (format_N_fuel n)) as [k Hk].
  rewrite Hk. reflexivity.
Qed.

Lemma dec_digits_head_acc f : forall n acc, digit_head acc -> digit_head (dec_digits f n acc).
Proof.
  induction f as [|f IH]; intros n acc H; cbn [dec_digits]; [exact H|].
  destruct (n <? 10)%N.
  - exists (n mod 10)%N, acc. split; [apply N.mod_lt; lia|reflexivity].
  - apply IH. exists (n mod 10)%N, acc. split; [apply N.mod_lt; lia|reflexivity].
Qed.

Lemma format_N_head n : digit_head (format_N n).
Proof.
  unfold format_N. cbn [dec_digits]. destruct (n <? 10)%N.
  - exists (n mod 10)%N, "". split; [apply N.mod_lt; lia|reflexivity].
  - apply dec_digits_head_acc. exists (n mod 10)%N, "". split; [apply N.mod_lt; lia|reflexivity].
Qed.

Lemma parse_int64_format_d z :
  - 2 ^ 63 <= z < 2 ^ 63 -> parse_int64 (format_d z) = Some z.
Proof.
  intros Hz. unfold format_d, parse_int64.
  destruct (Z.ltb_spec z 0) as [Hneg|Hpos].
  - pose proof (digits_value_format_N (Z.to_N (- z))) as Hv.
    destruct (format_N_head (Z.to_N (- z))) as (m & r & _ & Hr).
    rewrite Hr in *. rewrite Hv. cbn [option_map].
    rewrite Z2N.id by lia. rewrite Z.opp_involutive.
    destruct (Z.leb_spec (- 2 ^ 63) z); [|lia].
    destruct (Z.ltb_spec z (2 ^ 63)); [reflexivity|lia].
  - pose proof (digits_value_format_N (Z.to_N z)) as Hv.
    destruct (format_N_head (Z.to_N z)) as (m & r & Hm & Hr).
    rewrite Hr in *. rewrite Z2N.id in Hv by lia.
    assert (Hmatch : match String (digit_char m) r with
                     | String "-" (String c r0) => option_map Z.opp (digits_value (String c r0) 0)
                     | String c r0 => digits_value (String c r0) 0
                     | EmptyString => None
                     end = digits_value (String (digit_char m) r) 0).
    { assert (m = 0 \/ m = 1 \/ m = 2 \/ m = 3 \/ m = 4 \/ m = 5 \/ m = 6 \/ m = 7
              \/ m = 8 \/ m = 9)%N as Hm' by lia.
      repeat destruct Hm' as [->|Hm']; [..|subst m]; reflexivity. }
    rewrite Hmatch, Hv.
    destruct (Z.leb_spec (- 2 ^ 63) z); [|lia].
    destruct (Z.ltb_spec z (2 ^ 63)); [reflexivity|lia].
Qed.

(** X1: for a code in the range of a Go [int],
    the text of [ErrorResponse.Error] is ["Failed: "], the code in
    decimal, a space, the title, [": "] and the message, and
    [strconv.ParseInt] reads the code back from its decimal form. *)
Theorem ErrorResponse_Error_code e :
  - 2 ^ 63 <= Code e < 2 ^ 63 ->
  exists s, ErrorResponse_Error e = "Failed: " ++ s ++ " " ++ Title e ++ ": " ++ Message e
            /\ parse_int64 s = Some (Code e).
Proof.
  intros H. exists (format_d (Code e)). split; [reflexivity|].
  apply parse_int64_format_d. exact H.
Qed.

Lemma string_forallb_app p s t :
  string_forallb p (s ++ t) = string_forallb p s && string_forallb p t.
Proof. induction s as [|c s IH]; cbn; [reflexivity|]. rewrite IH, andb_assoc. reflexivity. Qed.

Lemma dec_digits_digits f : forall n acc,
  string_forallb is_digit acc = true -> string_forallb is_digit (dec_digits f n acc) = true.
Proof.
  induction f as [|f IH]; intros n acc H; cbn [dec_digits]; [exact H|].
  assert (Hd : is_digit (digit_char (n mod 10)) = true)
    by (apply digit_char_spec, N.mod_lt; lia).
  destruct (n <? 10)%N; [|apply IH]; cbn [string_forallb]; rewrite Hd, H; reflexivity.
Qed.

Lemma format_N_digits n : string_forallb is_digit (format_N n) = true.
Proof. apply dec_digits_digits. reflexivity. Qed.

Lemma string_forallb_impl (p q : ascii -> bool) s :
  (forall c, p c = true -> q c = true) ->
  string_forallb p s = true -> string_forallb q s = true.
Proof.
  intros Hpq. induction s as [|c s IH]; cbn; [reflexivity|].
  intros H. apply andb_prop in H as [H1 H2]. rewrite (Hpq c H1), (IH H2). reflexivity.
Qed.

Lemma fmt_bytes_aux_chars first s : string_forallb raw_char (fmt_bytes_aux first s) = true.
Proof.
  revert first. induction s as [|c s IH]; intros first; cbn [fmt_bytes_aux]; [reflexivity|].
  assert (Hn : string_forallb raw_char (format_N (N_of_ascii c)) = true).
  { apply (string_forallb_impl is_digit); [|apply format_N_digits].
    intros d Hd. unfold raw_char. rewrite Hd. reflexivity. }
  rewrite !string_forallb_app, IH, Hn. destruct first; reflexivity.
Qed.

Lemma digits_split x : forall x' y y',
  string_forallb is_digit x = true -> string_forallb is_digit x' = true ->
  sep_start y -> sep_start y' -> x ++ y = x' ++ y' -> x = x' /\ y = y'.
Proof.
  induction x as [|a x IH]; intros x' y y' Hx Hx' Hy Hy' H.
  - destruct x' as [|a' x'].
    + split; [reflexivity|exact H].
    + exfalso. cbn in H, Hx'. apply andb_prop in Hx' as [Ha _].
      destruct Hy as [->|[r ->]]; [discriminate|].
      injection H as <- _. discriminate.
  - destruct x' as [|a' x'].
    + exfalso. cbn in H, Hx. apply andb_prop in Hx as [Ha _].
      destruct Hy' as [->|[r ->]]; [discriminate|].
      injection H as -> _. discriminate.
    + cbn in H, Hx, Hx'. injection H as <- H.
      apply andb_prop in Hx as [_ Hx]. apply andb_prop in Hx' as [_ Hx'].
      destruct (IH x' y y' Hx Hx' Hy Hy' H) as [-> ->]. split; reflexivity.
Qed.

Lemma format_N_inj n n' : format_N n = format_N n' -> n = n'.
Proof.
  intros H. pose proof (digits_value_format_N n) as H1.
  pose proof (digits_value_format_N n') as H2.
  rewrite H, H2 in H1. injection H1 as H1. lia.
Qed.

Lemma fmt_bytes_aux_sep s : sep_start (fmt_bytes_aux false s).
Proof. destruct s as [|c s]; [left; reflexivity|right; eexists; reflexivity]. Qed.

Lemma fmt_bytes_aux_inj first s : forall s',
  fmt_bytes_aux first s = fmt_bytes_aux first s' -> s = s'.
Proof.
  revert first. induction s as [|c s IH]; intros first s' H; destruct s' as [|c' s'].
  - reflexivity.
  - exfalso. cbn [fmt_bytes_aux] in H. destruct (format_N_head (N_of_ascii c')) as (m & r & _ & Hr).
    rewrite Hr in H. destruct first; discriminate.
  - exfalso. cbn [fmt_bytes_aux] in H. destruct (format_N_head (N_of_ascii c)) as (m & r & _ & Hr).
    rewrite Hr in H. destruct first; discriminate.
  - cbn [fmt_bytes_aux] in H.
    assert (H' : format_N (N_of_ascii c) ++ fmt_bytes_aux false s
                 = format_N (N_of_ascii c') ++ fmt_bytes_aux false s')
      by (destruct first; cbn in H; [exact H|injection H as H; exact H]).
    destruct (digits_split _ _ _ _ (format_N_digits _) (format_N_digits _)
                (fmt_bytes_aux_sep s) (fmt_bytes_aux_sep s') H') as [Hc Hs].
    apply format_N_inj in Hc. rewrite <- (ascii_N_embedding c), <- (ascii_N_embedding c'), Hc.
    f_equal. apply (IH false). exact Hs.
Qed.

Lemma string_app_cancel_r x : forall x' t, x ++ t = x' ++ t -> x = x'.
Proof.
  assert (Hlen : forall s t, String.length (s ++ t) = (String.length s + String.length t)%nat).
  { induction s as [|c s IH]; intros t; cbn; [reflexivity|now rewrite IH]. }
  induction x as [|a x IH]; intros x' t H; destruct x' as [|a' x'].
  - reflexivity.
  - exfalso. apply (f_equal String.length) in H. cbn [append] in H. cbn [String.length] in H. rewrite ?Hlen in H. lia.
  - exfalso. apply (f_equal String.length) in H. cbn [append] in H. cbn [String.length] in H. rewrite ?Hlen in H. lia.
  - cbn in H. injection H as <- H. f_equal. apply (IH x' t H).
Qed.

(** X3: when the error detail is the raw body, the
    unexpected-status message shows it with [%v] of a [[]byte]: only
    digits, spaces and brackets, and two different bodies never print
    alike. *)
Theorem format_errInfo_raw b b' :
  string_forallb raw_char (format_errInfo (InfoRaw b)) = true /\
  (format_errInfo (InfoRaw b) = format_errInfo (InfoRaw b') -> b = b').
Proof.
  split.
  - cbn [format_errInfo]. change ("[" ++ ?x) with (String "[" x).
    cbn [string_forallb]. rewrite string_forallb_app, fmt_bytes_aux_chars. reflexivity.
  - cbn [format_errInfo]. intros H. injection H as H.
    apply string_app_cancel_r in H. apply (fmt_bytes_aux_inj true). exact H.
Qed.

Lemma upperhex_alnum n : (n < 16)%N -> net_url.is_alnum (net_url.upperhex n) = true.
Proof.
  intros H.
  assert (Hall : forall k, (k < 16)%nat ->
                 net_url.is_alnum (net_url.upperhex (N.of_nat k)) = true).
  { intros k Hk. do 16 (destruct k as [|k]; [reflexivity|]). lia. }
  rewrite <- (N2Nat.id n). apply Hall. lia.
Qed.

Lemma N_of_ascii_lt c : (N_of_ascii c < 256)%N.
Proof. destruct c as [[] [] [] [] [] [] [] []]; cbn; lia. Qed.

(** X8: [url.QueryEscape], which [Params.Encode] applies
    to every key and value, outputs only letters, digits and [-_.~%+]: no
    [&], [=], [#], [?] or space survives. *)
Theorem QueryEscape_chars s : string_forallb query_char (net_url.QueryEscape s) = true.
Proof.
  induction s as [|c s IH]; cbn [net_url.QueryEscape]; [reflexivity|].
  destruct (net_url.shouldEscape c) eqn:He.
  - destruct (c =? " ")%char; cbn [string_forallb]; rewrite ?IH.
    + reflexivity.
    + unfold query_char.
      rewrite (upperhex_alnum (N_of_ascii c / 16)), (upperhex_alnum (N_of_ascii c mod 16)).
      * reflexivity.
      * apply N.mod_lt; lia.
      * pose proof (N_of_ascii_lt c). apply N.Div0.div_lt_upper_bound. lia.
  - cbn [string_forallb]. rewrite IH, andb_true_r.
    unfold net_url.shouldEscape in He. unfold query_char.
    destruct (net_url.is_alnum c); [reflexivity|].
    destruct ((c =? "-")%char || (c =? "_")%char || (c =? ".")%char || (c =? "~")%char) eqn:Hm;
      [|discriminate He].
    destruct (c =? "-")%char, (c =? "_")%char, (c =? ".")%char, (c =? "~")%char;
      cbn in Hm |- *; first [reflexivity|discriminate Hm].
Qed.

Lemma ascii_compare_trans a b c :
  Ascii.compare a b = Lt -> Ascii.compare b c = Lt -> Ascii.compare a c = Lt.
Proof.
  unfold Ascii.compare. rewrite !N.compare_lt_iff. lia.
Qed.

Lemma ascii_compare_eq a b : Ascii.compare a b = Eq -> a = b.
Proof. apply Ascii.compare_eq_iff. Qed.

Lemma str_lt_trans s : forall t u, str_lt s t -> str_lt t u -> str_lt s u.
Proof.
  unfold str_lt.
  induction s as [|a s IH]; intros [|b t] [|c u]; cbn; try discriminate; auto.
  intros H1 H2. destruct (Ascii.compare a b) eqn:Hab; try discriminate H1.
  - apply ascii_compare_eq in Hab. subst b.
    destruct (Ascii.compare a c); try discriminate H2; [apply (IH t u H1 H2)|reflexivity].
  - destruct (Ascii.compare b c) eqn:Hbc; try discriminate H2.
    + apply ascii_compare_eq in Hbc. subst c. rewrite Hab. reflexivity.
    + rewrite (ascii_compare_trans _ _ _ Hab Hbc). reflexivity.
Qed.

Lemma str_compare_refl s : String.compare s s = Eq.
Proof.
  induction s as [|a s IH]; cbn; [reflexivity|].
  unfold Ascii.compare. rewrite N.compare_refl. exact IH.
Qed.

Lemma str_lt_irrefl s : ~ str_lt s s.
Proof. unfold str_lt. rewrite str_compare_refl. discriminate. Qed.

Lemma str_lt_total s t : s <> t -> str_lt s t \/ str_lt t s.
Proof.
  unfold str_lt. intros Hne. rewrite (String.compare_antisym t s).
  destruct (String.compare s t) eqn:H; cbn; auto.
  apply String.compare_eq_iff in H. contradiction.
Qed.

Lemma ltb_str_lt s t : String.ltb s t = true <-> str_lt s t.
Proof. unfold String.ltb, str_lt. destruct (String.compare s t); split; congruence. Qed.

Lemma insert_key_perm k ks : Permutation (k :: ks) (net_url.insert_key k ks).
Proof.
  induction ks as [|k' ks IH]; cbn; [reflexivity|].
  destruct (String.ltb k' k); [|reflexivity].
  rewrite perm_swap. constructor. exact IH.
Qed.

Lemma sort_Strings_perm ks : Permutation ks (net_url.sort_Strings ks).
Proof.
  induction ks as [|k ks IH]; cbn; [reflexivity|].
  rewrite <- insert_key_perm. constructor. exact IH.
Qed.

Lemma insert_key_sorted k ks :
  StronglySorted str_lt ks -> ~ In k ks -> StronglySorted str_lt (net_url.insert_key k ks).
Proof.
  induction ks as [|k' ks IH]; intros Hs Hin; cbn.
  - repeat constructor.
  - inversion Hs as [|? ? Hs' Hall]; subst.
    destruct (String.ltb k' k) eqn:Hlt.
    + apply ltb_str_lt in Hlt. constructor.
      * apply IH; [exact Hs'|]. intros H. apply Hin. right. exact H.
      * apply Forall_forall. intros x Hx.
        apply (Permutation_in _ (Permutation_sym (insert_key_perm k ks))) in Hx.
        destruct Hx as [<-|Hx]; [exact Hlt|]. rewrite Forall_forall in Hall. auto.
    + assert (Hk : str_lt k k').
      { destruct (str_lt_total k k') as [H|H]; [intros ->; apply Hin; left; reflexivity|exact H|].
        apply ltb_str_lt in H. congruence. }
      constructor; [exact Hs|]. constructor; [exact Hk|].
      rewrite Forall_forall in Hall |- *. intros x Hx. apply (str_lt_trans _ k'); auto.
Qed.

Lemma sort_Strings_sorted ks : NoDup ks -> StronglySorted str_lt (net_url.sort_Strings ks).
Proof.
  induction ks as [|k ks IH]; intros Hnd; cbn; [constructor|].
  inversion Hnd; subst. apply insert_key_sorted; [auto|].
  intros H. apply (Permutation_in _ (Permutation_sym (sort_Strings_perm ks))) in H. contradiction.
Qed.

Lemma sorted_perm_eq l1 : forall l2,
  StronglySorted str_lt l1 -> StronglySorted str_lt l2 -> Permutation l1 l2 -> l1 = l2.
Proof.
  induction l1 as [|a l1 IH]; intros l2 H1 H2 Hp.
  - symmetry. apply Permutation_nil. exact Hp.
  - destruct l2 as [|b l2]; [apply Permutation_sym, Permutation_nil in Hp; discriminate|].
    inversion H1 as [|? ? H1' Hall1]; subst. inversion H2 as [|? ? H2' Hall2]; subst.
    assert (a = b).
    { destruct (String.eqb_spec a b) as [|Hne]; [assumption|exfalso].
      assert (Ha : In a (b :: l2)) by (apply (Permutation_in _ Hp); left; reflexivity).
      assert (Hb : In b (a :: l1)) by (apply (Permutation_in _ (Permutation_sym Hp)); left; reflexivity).
      destruct Ha as [->|Ha]; [congruence|]. destruct Hb as [->|Hb]; [congruence|].
      rewrite Forall_forall in Hall1, Hall2.
      apply (str_lt_irrefl a). apply (str_lt_trans _ b); auto. }
    subst. f_equal. apply IH; auto. apply Permutation_cons_inv in Hp. exact Hp.
Qed.

Lemma lookup_perm (v1 v2 : net_url.values) :
  Permutation v1 v2 -> NoDup (map fst v1) -> forall k, header_lookup v1 k = header_lookup v2 k.
Proof.
  induction 1 as [|[k0 vs] l1 l2 Hp IH|[k1 vs1] [k2 vs2] l|l1 l2 l3 H12 IH12 H23 IH23];
    intros Hnd k; cbn in *.
  - reflexivity.
  - inversion Hnd; subst. rewrite IH by assumption. reflexivity.
  - inversion Hnd as [|? ? Hn1 Hnd']; subst.
    destruct (String.eqb_spec k k1), (String.eqb_spec k k2); subst; try reflexivity.
    exfalso. apply Hn1. left. reflexivity.
  - rewrite IH12 by assumption. apply IH23.
    apply (Permutation_NoDup (Permutation_map fst H12)). exact Hnd.
Qed.

Lemma fold_encode_ext (v1 v2 : net_url.values) keys buf :
  (forall k, header_lookup v1 k = header_lookup v2 k) ->
  fold_left (fun buf k => let keyEscaped := net_url.QueryEscape k in
               fold_left (fun buf x => (if (0 <? String.length buf)%nat then buf ++ "&" else buf)
                                       ++ keyEscaped ++ "=" ++ net_url.QueryEscape x)
                 (header_lookup v1 k) buf) keys buf =
  fold_left (fun buf k => let keyEscaped := net_url.QueryEscape k in
               fold_left (fun buf x => (if (0 <? String.length buf)%nat then buf ++ "&" else buf)
                                       ++ keyEscaped ++ "=" ++ net_url.QueryEscape x)
                 (header_lookup v2 k) buf) keys buf.
Proof.
  intros H. revert buf. induction keys as [|k keys IH]; intros buf; cbn; [reflexivity|].
  rewrite H. apply IH.
Qed.

(** X9: the query string of [Params] does
    not depend on the order in which the map is visited: [Encode] sorts
    the keys, so two listings of the same entries encode alike. *)
Theorem Values_Encode_order_independent (v1 v2 : net_url.values) :
  Permutation v1 v2 -> NoDup (map fst v1) -> net_url.Values_Encode v1 = net_url.Values_Encode v2.
Proof.
  intros Hp Hnd. unfold net_url.Values_Encode.
  assert (Hnd2 : NoDup (map fst v2)) by (apply (Permutation_NoDup (Permutation_map fst Hp)); exact Hnd).
  assert (Hk : net_url.sort_Strings (map fst v1) = net_url.sort_Strings (map fst v2)).
  { apply sorted_perm_eq; [apply sort_Strings_sorted; assumption|apply sort_Strings_sorted; assumption|].
    apply (Permutation_trans (Permutation_sym (sort_Strings_perm _))).
    apply (Permutation_trans (Permutation_map fst Hp)). apply sort_Strings_perm. }
  rewrite Hk. apply fold_encode_ext. apply lookup_perm; assumption.
Qed.

Lemma fold_encode_empty (v : net_url.values) keys buf :
  (forall k, header_lookup v k = []) ->
  fold_left (fun buf k => let keyEscaped := net_url.QueryEscape k in
               fold_left (fun buf x => (if (0 <? String.length buf)%nat then buf ++ "&" else buf)
                                       ++ keyEscaped ++ "=" ++ net_url.QueryEscape x)
                 (header_lookup v k) buf) keys buf = buf.
Proof.
  intros H. revert buf. induction keys as [|k keys IH]; intros buf; cbn; [reflexivity|].
  rewrite H. apply IH.
Qed.

Lemma lookup_all_empty (v : net_url.values) :
  forallb (fun e => match snd e with [] => true | _ => false end) v = true ->
  forall k, header_lookup v k = [].
Proof.
  induction v as [|[k0 vs] v IH]; intros H k; cbn in *; [reflexivity|].
  destruct vs; [|discriminate]. destruct (String.eqb k k0); [reflexivity|]. auto.
Qed.

(** X10: [Params] whose keys hold no values (an
    empty map included) encode to the empty string. *)
Theorem Values_Encode_no_values (v : net_url.values) :
  forallb (fun e => match snd e with [] => true | _ => false end) v = true ->
  net_url.Values_Encode v = "".
Proof.
  intros H. unfold net_url.Values_Encode. apply fold_encode_empty, lookup_all_empty, H.
Qed.

Lemma ascii_case_facts c :
  ascii_upper (ascii_upper c) = ascii_upper c /\
  ascii_lower (ascii_lower c) = ascii_lower c /\
  (ascii_upper c =? "-")%char = (c =? "-")%char /\
  (ascii_lower c =? "-")%char = (c =? "-")%char /\
  (is_token_char c = true -> is_token_char (ascii_upper c) = true /\
                             is_token_char (ascii_lower c) = true).
Proof.
  destruct c as [[] [] [] [] [] [] [] []]; repeat split; try reflexivity;
    match goal with Hf : _ = true |- _ => discriminate Hf end.
Qed.

Lemma canonical_aux_idem s : forall b, canonical_aux b (canonical_aux b s) = canonical_aux b s.
Proof.
  induction s as [|c s IH]; intros b; cbn; [reflexivity|].
  destruct (ascii_case_facts c) as (Hu & Hl & Hud & Hld & _).
  destruct b; [rewrite Hu, Hud|rewrite Hl, Hld]; rewrite IH; reflexivity.
Qed.

Lemma canonical_aux_token s : forall b,
  string_forallb is_token_char s = true ->
  string_forallb is_token_char (canonical_aux b s) = true.
Proof.
  induction s as [|c s IH]; intros b H; cbn in *; [reflexivity|].
  apply andb_prop in H as [Hc Hs].
  destruct (ascii_case_facts c) as (_ & _ & _ & _ & Ht).
  destruct (Ht Hc) as [Hu Hl].
  rewrite (IH _ Hs). destruct b; [rewrite Hu|rewrite Hl]; reflexivity.
Qed.

(** X12: canonicalising a header key twice is
    canonicalising it once, so a header looked up under a key or under its
    canonical form gives the same values. *)
Theorem CanonicalMIMEHeaderKey_idem h k :
  CanonicalMIMEHeaderKey (CanonicalMIMEHeaderKey k) = CanonicalMIMEHeaderKey k /\
  header_values h (CanonicalMIMEHeaderKey k) = header_values h k.
Proof.
  assert (Hid : CanonicalMIMEHeaderKey (CanonicalMIMEHeaderKey k) = CanonicalMIMEHeaderKey k).
  { destruct (string_forallb is_token_char k) eqn:Ht.
    - assert (E : CanonicalMIMEHeaderKey k = canonical_aux true k)
        by (unfold CanonicalMIMEHeaderKey; rewrite Ht; reflexivity).
      rewrite E. unfold CanonicalMIMEHeaderKey at 1.
      rewrite (canonical_aux_token _ _ Ht). apply canonical_aux_idem.
    - assert (E : CanonicalMIMEHeaderKey k = k)
        by (unfold CanonicalMIMEHeaderKey; rewrite Ht; reflexivity).
      rewrite !E. reflexivity. }
  split; [exact Hid|]. unfold header_values. rewrite Hid. reflexivity.
Qed.

Lemma decode_ErrorResponse_members_bad_code ms k lit :
  In (k, JNumber lit) ms -> equal_fold k "code" = true -> parse_int64 lit = None ->
  forall e, snd (decode_ErrorResponse_members ms e) = false.
Proof.
  intros Hin Hk Hp. induction ms as [|[k0 v0] ms IH]; [destruct Hin|].
  intros e. cbn [decode_ErrorResponse_members].
  destruct Hin as [Heq|Hin].
  - injection Heq as -> ->.
    assert (Hm : equal_fold k "message" = false)
      by (rewrite (equal_fold_names k "code" "message" Hk); reflexivity).
    rewrite Hm, Hk. unfold decode_int. rewrite Hp.
    destruct (decode_ErrorResponse_members ms _). reflexivity.
  - match goal with |- context [match ?X with pair _ _ => _ end] => destruct X as [e1 ok1] end.
    pose proof (IH Hin e1) as Hr.
    destruct (decode_ErrorResponse_members ms e1) as [e2 ok2]. cbn in Hr |- *.
    rewrite Hr. apply andb_false_r.
Qed.

Lemma decode_ErrorWrapper_members_bad ms k ms' :
  In (k, JObject ms') ms -> equal_fold k "error" = true ->
  (forall e, snd (decode_ErrorResponse_members ms' e) = false) ->
  forall e, snd (decode_ErrorWrapper_members ms e) = false.
Proof.
  intros Hin Hk Hbad. induction ms as [|[k0 v0] ms IH]; [destruct Hin|].
  intros e. cbn [decode_ErrorWrapper_members].
  destruct Hin as [Heq|Hin].
  - injection Heq as -> ->. rewrite Hk. cbn [decode_ErrorResponse].
    pose proof (Hbad e) as Hb.
    destruct (decode_ErrorResponse_members ms' e) as [e1 ok1]. cbn in Hb. subst ok1.
    destruct (decode_ErrorWrapper_members ms e1). reflexivity.
  - match goal with |- context [match ?X with pair _ _ => _ end] => destruct X as [e1 ok1] end.
    pose proof (IH Hin e1) as Hr.
    destruct (decode_ErrorWrapper_members ms e1) as [e2 ok2]. cbn in Hr |- *.
    rewrite Hr. apply andb_false_r.
Qed.

(** X4: when a JSON error envelope's ["error"] object
    has a ["code"] member that is a number but not a 64-bit integer (a
    fraction, an exponent, or out of range), [json.Unmarshal] fails and
    the error detail is the raw body, not the message and title the
    envelope holds. *)
Theorem error_info_bad_code resp ms k ms' k' lit :
  header_get (RespHeader resp) "Content-Type" = "application/json" ->
  json_parse (RespBody resp) = Some (JObject ms) ->
  In (k, JObject ms') ms -> equal_fold k "error" = true ->
  In (k', JNumber lit) ms' -> equal_fold k' "code" = true ->
  parse_int64 lit = None ->
  error_info resp = InfoRaw (RespBody resp).
Proof.
  intros Hct Hp Hin Hk Hin' Hk' Hl. unfold error_info, ReadAll. cbn [fst].
  rewrite Hct, String.eqb_refl. unfold Unmarshal_ErrorWrapper. rewrite Hp.
  pose proof (decode_ErrorWrapper_members_bad ms k ms' Hin Hk
                (decode_ErrorResponse_members_bad_code ms' k' lit Hin' Hk' Hl)
                ErrorResponse_zero) as H.
  destruct (decode_ErrorWrapper_members ms ErrorResponse_zero) as [e ok].
  cbn in H. subst ok. reflexivity.
Qed.

(** X11: a non-[nil] [Params] whose keys hold no
    values (an empty map included) encodes to the empty string, so the
    request a façade sends goes to the URL followed by a bare ["?"]. *)
Theorem facade_empty_params_url V json_Marshal D json_Unmarshal url_Parse c method url
    (reqData : RequestData V) (w : world D) p r :
  Params reqData = Some p ->
  forallb (fun e => match snd e with [] => true | _ => false end) p = true ->
  In r (new_requests D w (snd (JsonRequest V json_Marshal D json_Unmarshal
                                  net_url.Values_Encode url_Parse c method url reqData w))) \/
  In r (new_requests D w (snd (BinaryRequest V D net_url.Values_Encode url_Parse
                                  c method url reqData w))) ->
  url_Parse (url ++ "?") = inl (URL r).
Proof.
  intros Hp He Hin.
  pose proof (facade_sent_url V json_Marshal D json_Unmarshal net_url.Values_Encode url_Parse
                c method url reqData w r Hin) as Hu.
  unfold with_params in Hu. rewrite Hp in Hu.
  unfold net_url.Values_Encode in Hu.
  rewrite (fold_encode_empty p _ _ (lookup_all_empty p He)) in Hu.
  rewrite <- Hu. reflexivity.
Qed.

Lemma str_app_assoc (a b c : string) : a ++ b ++ c = (a ++ b) ++ c.
Proof. induction a as [|ch a IH]; cbn; [reflexivity|f_equal; exact IH]. Qed.

Lemma str_app_nil_r (a : string) : a ++ "" = a.
Proof. induction a as [|ch a IH]; cbn; [reflexivity|f_equal; exact IH]. Qed.

Lemma QueryEscape_digits s : string_forallb is_digit s = true -> net_url.QueryEscape s = s.
Proof.
  induction s as [|c s IH]; intros H; cbn [net_url.QueryEscape]; [reflexivity|].
  cbn [string_forallb] in H. apply andb_prop in H as [Hc Hs].
  assert (Ha : net_url.is_alnum c = true).
  { unfold is_digit in Hc. unfold net_url.is_alnum.
    destruct ((48 <=? nat_of_ascii c) && (nat_of_ascii c <=? 57))%nat; [|discriminate Hc].
    rewrite !orb_true_r. reflexivity. }
  unfold net_url.shouldEscape. rewrite Ha, (IH Hs). reflexivity.
Qed.

Lemma format_d_pos z : 0 < z -> format_d z = format_N (Z.to_N z).
Proof. intros H. unfold format_d. destruct (Z.ltb_spec z 0); [lia|reflexivity]. Qed.

(** X14: the query [List] sends is its four parameters
    sorted by name: [delimiter], [limit] (only for a positive limit, in
    decimal), [marker] and [prefix], each value query-escaped, and the
    empty ones included. *)
Theorem swift_List_query prefix delim marker limit :
  net_url.Values_Encode (swift.List_params prefix delim marker limit) =
  "delimiter=" ++ net_url.QueryEscape delim
  ++ (if 0 <? limit then "&limit=" ++ format_d limit else "")
  ++ "&marker=" ++ net_url.QueryEscape marker
  ++ "&prefix=" ++ net_url.QueryEscape prefix.
Proof.
  assert (H1 : net_url.QueryEscape "delimiter" = "delimiter") by reflexivity.
  assert (H2 : net_url.QueryEscape "limit" = "limit") by reflexivity.
  assert (H3 : net_url.QueryEscape "marker" = "marker") by reflexivity.
  assert (H4 : net_url.QueryEscape "prefix" = "prefix") by reflexivity.
  unfold swift.List_params. destruct (Z.ltb_spec 0 limit) as [Hl|Hl].
  - rewrite format_d_pos by exact Hl.
    cbn - [net_url.QueryEscape format_N].
    rewrite H1, H2, H3, H4, (QueryEscape_digits _ (format_N_digits _)).
    cbn - [net_url.QueryEscape format_N].
    rewrite <- !str_app_assoc. reflexivity.
  - cbn - [net_url.QueryEscape format_N].
    rewrite H1, H3, H4.
    cbn - [net_url.QueryEscape format_N].
    rewrite <- !str_app_assoc. reflexivity.
Qed.

(* ------------------------------------------------------------------ *)
(** ** Evaluations in the concrete setting *)

Local Abbreviation sample_JsonRequest :=
  (JsonRequest sample_value sample_Marshal (option json) sample_Unmarshal
               sample_Encode sample_Parse).
Local Abbreviation sample_BinaryRequest :=
  (BinaryRequest sample_value (option json) sample_Encode sample_Parse).
Local Abbreviation sample_sendRequest := (sendRequest (option json)).

(** The JSON layer, the error envelope and header canonicalisation on
    sample inputs. *)
Example json_parse_envelope :
  json_parse (dq "{'error':{'message':'quota exceeded','code':413,'title':'Over Limit'}}")
  = Some (JObject [("error", JObject [("message", JString "quota exceeded");
                                      ("code", JNumber "413");
                                      ("title", JString "Over Limit")])]).
Proof. vm_compute. reflexivity. Qed.

Example json_parse_misc :
  json_parse (dq " [1.5e3, -0, true, null, 'a\nbé'] ") =
  Some (JArray [JNumber "1.5e3"; JNumber "-0"; JBool true; JNull;
                JString ("a" ++ String "010" "b" ++ utf8_encode 233)]).
Proof. vm_compute. reflexivity. Qed.

Example json_parse_bad : json_parse "boom" = None /\ json_parse "" = None
  /\ json_parse (dq "{'a':1,}") = None /\ json_parse "01" = None.
Proof. vm_compute. repeat split. Qed.

Example Unmarshal_ErrorWrapper_envelope :
  Unmarshal_ErrorWrapper
    (dq "{'error':{'message':'quota exceeded','code':413,'title':'Over Limit'}}")
  = Some (mkErrorResponse "quota exceeded" 413 "Over Limit").
Proof. vm_compute. reflexivity. Qed.

Example Unmarshal_ErrorWrapper_other :
  Unmarshal_ErrorWrapper "{}" = Some ErrorResponse_zero
  /\ Unmarshal_ErrorWrapper "null" = Some ErrorResponse_zero
  /\ Unmarshal_ErrorWrapper "[1]" = None
  /\ Unmarshal_ErrorWrapper (dq "{'error':{'code':4.5}}") = None
  /\ Unmarshal_ErrorWrapper (dq "{'ERROR':{'Code':7},'x':[]}")
     = Some (mkErrorResponse "" 7 "").
Proof. vm_compute. repeat split. Qed.

(** Invalid UTF-8 inside a string becomes U+FFFD, and a key matches a
    field name up to Unicode case folding (here U+017F, the long s). *)
Example json_parse_invalid_utf8 :
  json_parse (dq ("'a" ++ String (ascii_of_nat 255) "b'"))
  = Some (JString ("a" ++ replacement_char ++ "b")).
Proof. vm_compute. reflexivity. Qed.

Example Unmarshal_ErrorWrapper_long_s :
  Unmarshal_ErrorWrapper
    (dq ("{'error':{'me" ++ String (ascii_of_nat 197) (String (ascii_of_nat 191) "")
         ++ "sage':'x','CODE':5}}"))
  = Some (mkErrorResponse "x" 5 "").
Proof. vm_compute. reflexivity. Qed.

Example header_add_canonical :
  header_values (header_add (header_add [] "Content-Type" "application/json")
                            "content-type" "text/plain") "CONTENT-TYPE"
  = ["application/json"; "text/plain"].
Proof. vm_compute. reflexivity. Qed.

(** C1: a "too many requests" answer followed by "OK": [JsonRequest]
    hands one request to the transport and returns the unexpected-status
    error of the first answer; nothing is retried. *)
Theorem JsonRequest_throttled_no_retry :
  let '(err, w') := sample_JsonRequest sample_client "GET" sample_url
                      (sample_request [] None None None)
                      (sample_world (throttled_then_ok 1)) in
  err = Some (UnexpectedStatus sample_url "429 Too Many Requests" (InfoRaw "slow down") "")
  /\ length (sent w') = 1%nat.
Proof. vm_compute. split; reflexivity. Qed.

(** C2, witness: the quota envelope of the spec's example is surfaced as
    its triple. *)
Lemma sendRequest_error_detail_witness :
  fst (sample_sendRequest sample_client sample_plain_request None [] ""
         (sample_world (always quota_response)))
  = ("", Some (UnexpectedStatus sample_url "413 Request Entity Too Large"
                 (InfoStructured (mkErrorResponse "quota exceeded" 413 "Over Limit")) "")).
Proof.
  destruct (sendRequest_error_detail (option json) sample_client sample_plain_request None []
              "" (sample_world (always quota_response)) quota_response eq_refl eq_refl)
    as [H _].
  rewrite H. vm_compute. reflexivity.
Defined.

(** C2, counterexample: with a JSON content type, the body [{}] is not the
    error envelope, yet the detail is the zero triple, not the raw body. *)
Lemma sendRequest_error_detail_counterexample :
  fst (sample_sendRequest sample_client sample_plain_request None [] ""
         (sample_world (always empty_object_response)))
  = ("", Some (UnexpectedStatus sample_url "500 Internal Server Error"
                 (InfoStructured ErrorResponse_zero) ""))
  /\ InfoStructured ErrorResponse_zero <> InfoRaw "{}".
Proof. split; [vm_compute; reflexivity | discriminate]. Qed.

(** C3, witness: with an empty [ExpectedStatus], "201 Created" is rejected. *)
Lemma sendRequest_status_classification_witness :
  is_unexpected_status
    (snd (fst (sample_sendRequest sample_client sample_plain_request None [] ""
                 (sample_world (always created_response))))) = true.
Proof.
  destruct (sendRequest_status_classification (option json) sample_client
              sample_plain_request None [] "" (sample_world (always created_response))
              created_response eq_refl) as [H _].
  apply (H eq_refl). discriminate.
Defined.

(** C5, counterexample: an accepted response with an empty body leaves the
    destination holding "old", which differs from the (empty) body. *)
Lemma BinaryRequest_stores_body_counterexample :
  let '(err, w') := sample_BinaryRequest sample_client "GET" sample_url
                      (sample_request [] None None (Some 0%nat))
                      (sample_world (always empty_ok_response)) in
  err = None /\ bytes_mem w' 0%nat = "old" /\ bytes_mem w' 0%nat <> RespBody empty_ok_response.
Proof. vm_compute. split; [reflexivity | split; [reflexivity | discriminate]]. Qed.

(** C5, witness: a non-empty body is stored verbatim. *)
Lemma BinaryRequest_stores_body_witness :
  let '(err, w') := sample_BinaryRequest sample_client "GET" sample_url
                      (sample_request [] None None (Some 0%nat))
                      (sample_world (always ok_response)) in
  err = None /\ bytes_mem w' 0%nat = "hello".
Proof.
  pose proof (BinaryRequest_stores_body sample_value (option json) sample_Encode sample_Parse
                sample_client "GET" sample_url (sample_request [] None None (Some 0%nat))
                (sample_world (always ok_response)) ok_response sample_url 0%nat
                eq_refl eq_refl eq_refl eq_refl eq_refl) as H.
  destruct (BinaryRequest _ _ _ _ _ _ _ _ _) as [err w'].
  destruct H as (H1 & H2 & _). split; [exact H1 | rewrite H2; reflexivity].
Defined.

(** C6, witness: always "too many requests", nothing listed: an error. *)
Lemma throttled_call_fails_witness :
  fst (sample_JsonRequest sample_client "GET" sample_url (sample_request [] None None None)
         (sample_world (always too_many_requests))) <> None.
Proof.
  apply (throttled_call_fails sample_value sample_Marshal (option json) sample_Unmarshal
           sample_Encode sample_Parse sample_client "GET" sample_url
           (sample_request [] None None None) (sample_world (always too_many_requests))).
  - intros n. exists too_many_requests. split; reflexivity.
  - cbn. tauto.
Defined.

(** C6, counterexample: always "too many requests", but 429 listed in
    [ExpectedStatus]: the call succeeds. *)
Lemma throttled_call_fails_counterexample :
  fst (sample_JsonRequest sample_client "GET" sample_url (sample_request [429] None None None)
         (sample_world (always too_many_requests))) = None.
Proof. vm_compute. reflexivity. Qed.

(** C7, witness: a channel cannot be encoded. *)
Lemma JsonRequest_marshal_failure_witness :
  sample_JsonRequest sample_client "POST" sample_url
    (sample_request [] (Some SampleChan) None None) (sample_world (always ok_response))
  = (Some (WithContext "failed marshalling the request body"
             (GoError "json: unsupported type: chan int")),
     sample_world (always ok_response)).
Proof.
  apply (JsonRequest_marshal_failure sample_value sample_Marshal (option json) sample_Unmarshal
           sample_Encode sample_Parse sample_client "POST" sample_url
           (sample_request [] (Some SampleChan) None None) (sample_world (always ok_response))
           SampleChan (GoError "json: unsupported type: chan int")); reflexivity.
Defined.

(** C8, witness: [JsonRequest] with only a [RespData] destination: no
    error, and the [*[]byte] still holds "old". *)
Lemma facade_absent_destination_noop_witness :
  let '(err, w') := sample_JsonRequest sample_client "GET" sample_url
                      (sample_request [] None None (Some 0%nat))
                      (sample_world (always ok_response)) in
  err = None /\ bytes_mem w' 0%nat = "old".
Proof.
  destruct (facade_absent_destination_noop sample_value sample_Marshal (option json)
              sample_Unmarshal sample_Encode sample_Parse sample_client "GET" sample_url
              (sample_request [] None None (Some 0%nat)) (sample_world (always ok_response))
              ok_response sample_url eq_refl eq_refl eq_refl eq_refl) as [Hj _].
  assert (Hm : forall v, ReqValue (sample_request [] None None (Some 0%nat)) = Some v ->
                         exists body, sample_Marshal v = inl body) by (intros v Hv; discriminate).
  specialize (Hj Hm (or_intror eq_refl)).
  destruct (JsonRequest _ _ _ _ _ _ _ _ _ _ _) as [err w'].
  destruct Hj as (H1 & H2 & _). split; [exact H1 | rewrite H2; reflexivity].
Defined.

(** C9, witness: a caller [content-type] is appended after the façade's. *)
Lemma facade_content_headers_kept_witness :
  header_values
    (Header (dispatched sample_client
               (with_content_headers "application/json"
                  (mkRequest "POST" sample_url [] (Some "true")))
               (Some caller_headers))) "Content-Type"
  = ["application/json"; "text/plain"].
Proof.
  destruct (facade_content_headers_kept sample_value sample_Marshal (option json)
              sample_Unmarshal sample_Encode sample_Parse sample_client "POST" sample_url
              (mkRequestData (Some caller_headers) None [] (Some (SampleBool true)) None None None)
              (sample_world (always ok_response))
              (dispatched sample_client
                 (with_content_headers "application/json"
                    (mkRequest "POST" sample_url [] (Some "true")))
                 (Some caller_headers))) as [Hj _].
  destruct Hj as [H1 _].
  - vm_compute. left. reflexivity.
  - rewrite H1. reflexivity.
Defined.

(** C10, witness: a refused request leaves the destinations as they were. *)
Lemma dispatch_failure_keeps_destinations_witness :
  let '(err, w') := sample_BinaryRequest sample_client "GET" sample_url
                      (sample_request [] None None (Some 0%nat))
                      (sample_world (always too_many_requests)) in
  err <> None /\ bytes_mem w' 0%nat = "old".
Proof.
  destruct (dispatch_failure_keeps_destinations sample_value sample_Marshal (option json)
              sample_Unmarshal sample_Encode sample_Parse sample_client "GET" sample_url
              (sample_request [] None None (Some 0%nat))
              (sample_world (always too_many_requests)) eq_refl) as (_ & _ & Hb).
  destruct (BinaryRequest _ _ _ _ _ _ _ _ _) as [err w'].
  destruct Hb as (H1 & H2 & _). split; [exact H1 | rewrite H2; reflexivity].
Defined.

(** X1, witness: a negative code is printed with
    its sign and read back. *)
Lemma ErrorResponse_Error_code_witness :
  exists s, ErrorResponse_Error (mkErrorResponse "denied" (-42) "Forbidden")
            = "Failed: " ++ s ++ " " ++ "Forbidden" ++ ": " ++ "denied"
            /\ parse_int64 s = Some (-42).
Proof.
  apply (ErrorResponse_Error_code (mkErrorResponse "denied" (-42) "Forbidden")).
  cbn. lia.
Defined.

(** X3, witness: the body "slow down". *)
Lemma format_errInfo_raw_witness :
  string_forallb raw_char (format_errInfo (InfoRaw "slow down")) = true /\
  "slow down" = "slow down".
Proof.
  destruct (format_errInfo_raw "slow down" "slow down") as [H1 H2].
  split; [exact H1|apply H2; reflexivity].
Defined.

(** X9, witness: two listings of a
    two-key map. *)
Lemma Values_Encode_order_independent_witness :
  net_url.Values_Encode [("marker", ["m"]); ("limit", ["10"])] =
  net_url.Values_Encode [("limit", ["10"]); ("marker", ["m"])].
Proof.
  apply Values_Encode_order_independent.
  - apply perm_swap.
  - cbn. constructor; [|constructor; [|constructor]]; cbn; [intros [H|[]]; discriminate H|tauto].
Defined.

(** X10, witness: keys without values. *)
Lemma Values_Encode_no_values_witness :
  net_url.Values_Encode [("prefix", []); ("marker", [])] = "".
Proof. apply Values_Encode_no_values. reflexivity. Defined.

(** X6, witness: a [GET] without a value sends one
    request, to the parsed URL. *)
Lemma facade_one_request_witness :
  exists r, new_requests (option json) (sample_world (always ok_response))
              (snd (sample_JsonRequest sample_client "GET" sample_url
                      (sample_request [] None None None) (sample_world (always ok_response))))
            = [r] /\ URL r = sample_url.
Proof.
  destruct (facade_one_request sample_value sample_Marshal (option json) sample_Unmarshal
              sample_Encode sample_Parse sample_client "GET" sample_url
              (sample_request [] None None None) (sample_world (always ok_response)) sample_url)
    as (_ & _ & _ & Hj & _).
  apply Hj; [reflexivity|intros v Hv; discriminate Hv].
Defined.

(** X5, witness: a JSON request answered with
    413 carries its marshalled body. *)
Lemma facade_unexpected_status_witness :
  fst (sample_JsonRequest sample_client "POST" sample_url
         (sample_request [201] (Some (SampleBool true)) None None)
         (sample_world (always quota_response)))
  = Some (UnexpectedStatus sample_url "413 Request Entity Too Large"
            (error_info quota_response) "true").
Proof.
  apply (facade_unexpected_status sample_value sample_Marshal (option json) sample_Unmarshal
           sample_Encode sample_Parse sample_client "POST" sample_url
           (sample_request [201] (Some (SampleBool true)) None None)
           (sample_world (always quota_response)) sample_url quota_response "true");
    reflexivity.
Defined.

(** X4, witness: an envelope whose code overflows. *)
Lemma error_info_bad_code_witness :
  error_info overflow_code_response = InfoRaw (RespBody overflow_code_response).
Proof.
  apply (error_info_bad_code overflow_code_response
           [("error", JObject [("message", JString "boom");
                                ("code", JNumber "99999999999999999999");
                                ("title", JString "Oops")])]
           "error"
           [("message", JString "boom"); ("code", JNumber "99999999999999999999");
            ("title", JString "Oops")]
           "code" "99999999999999999999").
  - reflexivity.
  - vm_compute. reflexivity.
  - left. reflexivity.
  - reflexivity.
  - right. left. reflexivity.
  - reflexivity.
  - vm_compute. reflexivity.
Defined.

(** X11, witness: [Params] with an empty key. *)
Lemma facade_empty_params_url_witness :
  sample_Parse (sample_url ++ "?") =
  inl (URL (dispatched sample_client
              (with_content_headers "application/json"
                 (mkRequest "GET" (sample_url ++ "?") [] None)) None)).
Proof.
  apply (facade_empty_params_url sample_value sample_Marshal (option json) sample_Unmarshal
           sample_Parse sample_client "GET" sample_url
           (mkRequestData None (Some [("marker", [])]) [] None None None None)
           (sample_world (always ok_response)) [("marker", [])]).
  - reflexivity.
  - reflexivity.
  - left. vm_compute. left. reflexivity.
Defined.
